(** * Chimee event binder (src/dispatcher/binder.ts)

    A shallow embedding of the dispatcher's [Binder] class and of the pure
    helpers in front of it: the name/target resolver, the guard of the
    emitting methods, the registry of native listeners, the pending queue,
    the listener installed by [listenOnMouseMoveEvent] and [destroy].

    JavaScript objects indexed by the closed set of targets are records with
    one field per target; arrays are lists; the mutable state reachable from
    a [Binder] instance (its own fields and the dispatcher it points to) is
    threaded explicitly; calls that leave the class (DOM attach and detach,
    the media kernel, the fan-out of a bus) are appended to a trace. *)

From Stdlib Require Import String Ascii List ZArith Bool Lia.
Import ListNotations.
Open Scope string_scope.
Open Scope list_scope.

(** ** Targets, stages and per-target tables *)

(** [BinderTarget] of typings/base, in the order of [this.kinds]. *)
Inductive BinderTarget : Type :=
| Kernel | Container | Wrapper | Video | VideoDom | Plugin | EsFullscreen.

(** Modelled from the spec: typings/base is not part of the sources.  The
    stage is ['main'] or whatever the secondary-event pattern matched; the
    resolver's text names the reserved prefixes before, after and the
    internal underscore. *)
Inductive EventStage : Type :=
| StBefore | StAfter | StMain | StInternal.

Definition BinderTarget_eqb (a b : BinderTarget) : bool :=
  match a, b with
  | Kernel, Kernel | Container, Container | Wrapper, Wrapper
  | Video, Video | VideoDom, VideoDom | Plugin, Plugin
  | EsFullscreen, EsFullscreen => true
  | _, _ => false
  end.

(** An object of type [{ [key in BinderTarget]: X }]. *)
Record PerTarget (X : Type) : Type := mkPerTarget {
  at_kernel : X;
  at_container : X;
  at_wrapper : X;
  at_video : X;
  at_videoDom : X;
  at_plugin : X;
  at_esFullscreen : X
}.
Arguments mkPerTarget {X}.
Arguments at_kernel {X}.
Arguments at_container {X}.
Arguments at_wrapper {X}.
Arguments at_video {X}.
Arguments at_videoDom {X}.
Arguments at_plugin {X}.
Arguments at_esFullscreen {X}.

(** [obj[target]] *)
Definition get {X} (t : BinderTarget) (m : PerTarget X) : X :=
  match t with
  | Kernel => at_kernel m
  | Container => at_container m
  | Wrapper => at_wrapper m
  | Video => at_video m
  | VideoDom => at_videoDom m
  | Plugin => at_plugin m
  | EsFullscreen => at_esFullscreen m
  end.

(** [obj[target] = x] *)
Definition set {X} (t : BinderTarget) (x : X) (m : PerTarget X) : PerTarget X :=
  match t with
  | Kernel =>
      mkPerTarget x (at_container m) (at_wrapper m) (at_video m)
        (at_videoDom m) (at_plugin m) (at_esFullscreen m)
  | Container =>
      mkPerTarget (at_kernel m) x (at_wrapper m) (at_video m)
        (at_videoDom m) (at_plugin m) (at_esFullscreen m)
  | Wrapper =>
      mkPerTarget (at_kernel m) (at_container m) x (at_video m)
        (at_videoDom m) (at_plugin m) (at_esFullscreen m)
  | Video =>
      mkPerTarget (at_kernel m) (at_container m) (at_wrapper m) x
        (at_videoDom m) (at_plugin m) (at_esFullscreen m)
  | VideoDom =>
      mkPerTarget (at_kernel m) (at_container m) (at_wrapper m) (at_video m)
        x (at_plugin m) (at_esFullscreen m)
  | Plugin =>
      mkPerTarget (at_kernel m) (at_container m) (at_wrapper m) (at_video m)
        (at_videoDom m) x (at_esFullscreen m)
  | EsFullscreen =>
      mkPerTarget (at_kernel m) (at_container m) (at_wrapper m) (at_video m)
        (at_videoDom m) (at_plugin m) x
  end.

(** The object the constructor's loop over [this.kinds] builds. *)
Definition init {X} (f : BinderTarget -> X) : PerTarget X :=
  mkPerTarget (f Kernel) (f Container) (f Wrapper) (f Video)
    (f VideoDom) (f Plugin) (f EsFullscreen).

(** ** Strings and arrays as JavaScript sees them *)

(** [s.slice(n)] *)
Fixpoint drop (n : nat) (s : string) : string :=
  match n, s with
  | O, _ => s
  | S _, EmptyString => EmptyString
  | S k, String _ r => drop k r
  end.

(** A pattern [^(a1|a2|...)]: the match is the first alternative, in the
    order written, that the subject starts with. *)
Fixpoint matchPrefix (alts : list string) (s : string) : option string :=
  match alts with
  | [] => None
  | a :: rest => if String.prefix a s then Some a else matchPrefix rest s
  end.

(** [s.replace(reg, '')] for such a pattern. *)
Definition stripPrefix (alts : list string) (s : string) : string :=
  match matchPrefix alts s with
  | Some m => drop (String.length m) s
  | None => s
  end.

(** [arr.indexOf(x)]: the first position of [x], or [-1]. *)
Fixpoint indexOfFrom (i : Z) (x : string) (l : list string) : Z :=
  match l with
  | [] => (-1)%Z
  | y :: r => if String.eqb y x then i else indexOfFrom (i + 1) x r
  end.

Definition indexOf (x : string) (l : list string) : Z := indexOfFrom 0 x l.

(** [arr.splice(i, 1)] seen from the array: the element at [i] is gone. *)
Fixpoint removeAt {A} (i : nat) (l : list A) : list A :=
  match i, l with
  | _, [] => []
  | O, _ :: r => r
  | S k, x :: r => x :: removeAt k r
  end.

(** [arr.pop()]: the last element and the array without it. *)
Fixpoint pop {A} (l : list A) : option (A * list A) :=
  match l with
  | [] => None
  | [x] => Some (x, [])
  | x :: r =>
      match pop r with
      | Some (y, r') => Some (y, x :: r')
      | None => None
      end
  end.

(** The values a caller may put where a string or a handler is expected.
    [JsObject] is an object that is neither a function nor a String
    object; String objects, which lodash's [isString] accepts, are not
    among the values modelled. *)
Inductive JsValue : Type :=
| JsUndefined
| JsNull
| JsBoolean (b : bool)
| JsNumber (z : Z)
| JsString (s : string)
| JsFunction (h : nat)
| JsObject.

(** [!v] *)
Definition falsy (v : JsValue) : bool :=
  match v with
  | JsUndefined | JsNull => true
  | JsBoolean b => negb b
  | JsNumber z => Z.eqb z 0
  | JsString s => String.eqb s ""
  | JsFunction _ | JsObject => false
  end.

(** lodash [isString] and [isFunction] *)
Definition isString (v : JsValue) : bool :=
  match v with JsString _ => true | _ => false end.

Definition isFunction (v : JsValue) : bool :=
  match v with JsFunction _ => true | _ => false end.

(** ** What binder.ts imports

    The event tables and predicate of const/event and lodash's [camelCase]
    are used by the code below and are not part of it. *)
Class Imports : Type := {
  videoEvents : list string;
  kernelEvents : list string;
  domEvents : list string;
  esFullscreenEvents : list string;
  mustListenVideoDomEvents : list string;
  isMustListenVideoDomEvent : string -> bool;
  camelCase : string -> string
}.

(** Modelled from the spec: const/regExp is not part of the sources.  The
    secondary-event pattern recognises the reserved prefixes; the message of
    [isEventEmitalbe] lists them: before, after and the underscore. *)
Definition secondaryEventReg : list string := ["before"; "after"; "_"].

(** [new RegExp('^(c|w)_')] *)
Definition targetKeyReg : list string := ["c_"; "w_"].

(** The matched text read as a stage ([matches[0] as EventStage]). *)
Definition stageOfMatch (m : string) : EventStage :=
  if String.eqb m "before" then StBefore
  else if String.eqb m "after" then StAfter
  else if String.eqb m "_" then StInternal
  else StMain.

(** ** Name and target resolution *)

Record additionalEventInfo : Type := mkInfo {
  ei_name : string;
  ei_stage : EventStage;
  ei_target : BinderTarget
}.

Section Resolver.
Context `{Imports}.

Definition getEventTargetByOldLogic (oldName : string)
  : option (string * BinderTarget) :=
  match matchPrefix targetKeyReg oldName with
  | Some _ =>
      let name := stripPrefix targetKeyReg oldName in
      let target := if String.prefix "c" oldName then Container else Wrapper in
      Some (name, target)
  | None =>
      if String.eqb oldName "error" then Some ("error", Kernel) else None
  end.

Definition getEventStage (name : string) : string * EventStage :=
  match matchPrefix secondaryEventReg name with
  | Some m => (camelCase (stripPrefix secondaryEventReg name), stageOfMatch m)
  | None => (name, StMain)
  end.

Definition getEventTargetByEventName (name : string) : BinderTarget :=
  if (indexOf name videoEvents >? -1)%Z then Video
  else if (indexOf name kernelEvents >? -1)%Z then Kernel
  else if (indexOf name domEvents >? -1)%Z then VideoDom
  else if (indexOf name esFullscreenEvents >? -1)%Z then EsFullscreen
  else Plugin.

Definition getEventInfo (name : string) (stage : option EventStage)
    (target : option BinderTarget) : additionalEventInfo :=
  let oldInfo := getEventTargetByOldLogic name in
  let name := match oldInfo with Some o => fst o | None => name end in
  let target := match oldInfo with Some o => Some (snd o) | None => target end in
  let '(newName, newStage) := getEventStage name in
  let name := newName in
  let target :=
    match target with
    | Some t => t
    | None => getEventTargetByEventName name
    end in
  mkInfo name
    (match stage with Some s => s | None => newStage end)
    target.

End Resolver.

(** ** Collaborators of the binder *)

(** DOM elements and kernels are objects compared by identity. *)
Definition Node : Type := nat.
Definition ChimeeKernel : Type := nat.

(** The four ways a bus delivers an event. *)
Inductive FanOut : Type := Emit | EmitSync | Trigger | TriggerSync.

(** The arrow functions the binder creates:
    [(...args) => this.triggerSync({ target, name, id }, ...args)],
    [(...args) => this.trigger({ target, name, id }, ...args)], and the
    handler written in [listenOnMouseMoveEvent], which captures [name]. *)
Inductive FnBody : Type :=
| ForwardSync (target : BinderTarget) (name id : string)
| ForwardAsync (target : BinderTarget) (name id : string)
| MouseMove (name : string).

(** A function object: every evaluation of an arrow function makes a new
    one, told apart from the others by [fn_ref]. *)
Record NativeFn : Type := mkFn { fn_ref : nat; fn_body : FnBody }.

(** Calls that leave the class. *)
Inductive Effect : Type :=
| AddEvent (node : Node) (name : string) (fn : NativeFn)
| RemoveEvent (node : Node) (name : string) (fn : NativeFn)
| KernelOn (k : ChimeeKernel) (name : string) (fn : NativeFn)
| KernelOff (k : ChimeeKernel) (name : string) (fn : NativeFn)
| BusFanOut (target : BinderTarget) (how : FanOut) (name : string).

(** dispatcher/bus: the registry of logical subscribers of one target.  The
    binder only calls it, with the handler it was given. *)
Class BusClass : Type := {
  Bus : Type;
  newBus : BinderTarget -> Bus;
  busOn : string -> string -> JsValue -> EventStage -> Bus -> Bus;
  busOnce : string -> string -> JsValue -> EventStage -> Bus -> Bus;
  busOff : string -> string -> JsValue -> EventStage -> Bus -> Bus;
  busHasEvents : Bus -> bool
}.

(** dispatcher/dom, as far as the binder reads and writes it. *)
Record Dom : Type := mkDom {
  container : Node;
  wrapper : Node;
  videoElement : Node;
  videoExtendedNodes : list Node;
  mouseInVideo : bool
}.

(** [dom.isNodeInsideVideo]; the argument may be null. *)
Class DomClass : Type := {
  isNodeInsideVideo : option Node -> bool
}.

Record Dispatcher : Type := mkDispatcher {
  dom : Dom;
  kernel : option ChimeeKernel
}.

(** What a method hands back: nothing, [false], or whatever the bus
    returned. *)
Inductive Ret : Type := RetUndefined | RetFalse | RetBus.

Inductive Res (A : Type) : Type :=
| Ok (a : A)
| Throw (msg : string).
Arguments Ok {A}.
Arguments Throw {A}.

Record rawEventInfo : Type := mkRaw {
  raw_fn : JsValue;
  raw_id : string;
  raw_name : string;
  raw_stage : option EventStage;
  raw_target : option BinderTarget
}.

Record wholeEventInfo : Type := mkWhole {
  w_fn : JsValue;
  w_id : string;
  w_name : string;
  w_stage : EventStage;
  w_target : BinderTarget
}.

(** The first argument of emit, emitSync, trigger and triggerSync, when it
    is an object, as the destructuring of the guard needs, whose target, if
    any, is one of the targets of the binder.  Its type asks for strings;
    the guard is there for callers that pass something else. *)
Record emitInfo : Type := mkEmit {
  em_id : JsValue;
  em_name : JsValue;
  em_stage : option EventStage;
  em_target : option BinderTarget
}.

(** The event object a mouse listener receives. *)
Record MouseEvent : Type := mkMouseEvent {
  toElement : option Node;
  currentTarget : Node;
  relatedTarget : option Node;
  type : string
}.

(** [a || b] on nodes that may be null *)
Definition orElse (a b : option Node) : option Node :=
  match a with Some _ => a | None => b end.

Definition targetString (t : BinderTarget) : string :=
  match t with
  | Kernel => "kernel"
  | Container => "container"
  | Wrapper => "wrapper"
  | Video => "video"
  | VideoDom => "video-dom"
  | Plugin => "plugin"
  | EsFullscreen => "esFullscreen"
  end.

Definition kinds : list BinderTarget :=
  [Kernel; Container; Wrapper; Video; VideoDom; Plugin; EsFullscreen].

Section BinderState.
Context `{BusClass}.

(** The fields of a [Binder], the dispatcher they point to, the number of
    function objects created so far and the calls made so far. *)
Record State : Type := mkState {
  bindedEventInfo : PerTarget (list (string * NativeFn));
  bindedEventNames : PerTarget (list string);
  buses : PerTarget Bus;
  dispatcher : Dispatcher;
  pendingEventsInfo : PerTarget (list (string * string));
  allocated : nat;
  trace : list Effect
}.

(** [new Binder(dispatcher)] *)
Definition newBinder (d : Dispatcher) : State :=
  mkState (init (fun _ => [])) (init (fun _ => [])) (init newBus) d
    (init (fun _ => [])) 0 [].

Definition setInfo (t : BinderTarget) (l : list (string * NativeFn)) (s : State)
  : State :=
  mkState (set t l (bindedEventInfo s)) (bindedEventNames s) (buses s)
    (dispatcher s) (pendingEventsInfo s) (allocated s) (trace s).

Definition setNames (t : BinderTarget) (l : list string) (s : State) : State :=
  mkState (bindedEventInfo s) (set t l (bindedEventNames s)) (buses s)
    (dispatcher s) (pendingEventsInfo s) (allocated s) (trace s).

Definition setBus (t : BinderTarget) (b : Bus) (s : State) : State :=
  mkState (bindedEventInfo s) (bindedEventNames s) (set t b (buses s))
    (dispatcher s) (pendingEventsInfo s) (allocated s) (trace s).

Definition setPending (t : BinderTarget) (l : list (string * string))
    (s : State) : State :=
  mkState (bindedEventInfo s) (bindedEventNames s) (buses s)
    (dispatcher s) (set t l (pendingEventsInfo s)) (allocated s) (trace s).

(** [dom.mouseInVideo = b] *)
Definition setMouseInVideo (b : bool) (s : State) : State :=
  let d := dom (dispatcher s) in
  mkState (bindedEventInfo s) (bindedEventNames s) (buses s)
    (mkDispatcher
       (mkDom (container d) (wrapper d) (videoElement d)
          (videoExtendedNodes d) b)
       (kernel (dispatcher s)))
    (pendingEventsInfo s) (allocated s) (trace s).

(** One more call in the trace. *)
Definition log (e : Effect) (s : State) : State :=
  mkState (bindedEventInfo s) (bindedEventNames s) (buses s)
    (dispatcher s) (pendingEventsInfo s) (allocated s) (trace s ++ [e]).

(** Evaluating an arrow function. *)
Definition newFn (body : FnBody) (s : State) : NativeFn * State :=
  (mkFn (allocated s) body,
   mkState (bindedEventInfo s) (bindedEventNames s) (buses s)
     (dispatcher s) (pendingEventsInfo s) (S (allocated s)) (trace s)).

(** dom-helpers/events [on] and [off] *)
Definition addEvent (node : Node) (name : string) (fn : NativeFn) : State -> State :=
  log (AddEvent node name fn).

Definition removeEvent (node : Node) (name : string) (fn : NativeFn)
  : State -> State :=
  log (RemoveEvent node name fn).

(** [arr.forEach], for a callback that only changes the state *)
Definition forEach {A} (l : list A) (f : A -> State -> State) (s : State) : State :=
  fold_left (fun acc x => f x acc) l s.

(** *** Methods that may throw *)

Definition M (A : Type) : Type := State -> Res A * State.

Definition ret {A} (a : A) : M A := fun s => (Ok a, s).

Definition throw {A} (msg : string) : M A := fun s => (Throw msg, s).

Definition bind {A B} (m : M A) (k : A -> M B) : M B :=
  fun s =>
    match m s with
    | (Ok a, s') => k a s'
    | (Throw msg, s') => (Throw msg, s')
    end.

Definition modify (f : State -> State) : M unit := fun s => (Ok tt, f s).

Definition gets {A} (f : State -> A) : M A := fun s => (Ok (f s), s).

Definition liftRes {A} (r : Res A) : M A := fun s => (r, s).

Fixpoint forEachM {A} (l : list A) (f : A -> M unit) : M unit :=
  match l with
  | [] => ret tt
  | x :: r => bind (f x) (fun _ => forEachM r f)
  end.

End BinderState.

Declare Scope binder_scope.
Delimit Scope binder_scope with binder.
Notation "x <- m ;; k" := (bind m (fun x => k))
  (at level 61, m at next level, right associativity) : binder_scope.
Notation "m ;; k" := (bind m (fun _ => k))
  (at level 61, right associativity) : binder_scope.
Open Scope binder_scope.

(** ** The binder *)

Section Binder.
Context `{Imports} `{BusClass} `{DomClass}.

Definition prettifyEventParameter (info : rawEventInfo) : Res wholeEventInfo :=
  let id := raw_id info in
  let fn := raw_fn info in
  let i := getEventInfo (raw_name info) (raw_stage info) (raw_target info) in
  if negb (isFunction fn)
  then Throw "You must provide a function to handle with event"
  else Ok (mkWhole fn id (ei_name i) (ei_stage i) (ei_target i)).

(** The advisory messages of [chimeeLog] are not part of the model. *)
Definition isEventEmitalbe (info : emitInfo) : bool :=
  let name := em_name info in
  let id := em_id info in
  if falsy name || negb (isString name)
     || match name with
        | JsString n =>
            match matchPrefix secondaryEventReg n with
            | Some _ => true
            | None => false
            end
        | _ => false
        end
  then false
  else if falsy id || negb (isString id) then false
  else true.

(** toxic-decorators' [runnable(guard, { backup })]: the method runs when
    the guard accepts its arguments; otherwise the backup runs, which
    returns undefined when none is given. *)
Definition runnable (guard : emitInfo -> bool) (backup : Ret)
    (method : emitInfo -> M Ret) (info : emitInfo) : M Ret :=
  if guard info then method info else ret backup.

(** [this.buses[target].emit(name, ...args)] and its three siblings: what
    the subscribers do when called is theirs; the call is recorded. *)
Definition busFanOut (target : BinderTarget) (how : FanOut) (name : string)
  : M Ret :=
  modify (log (BusFanOut target how name)) ;; ret RetBus.

(** The body shared by emit, emitSync, trigger and triggerSync.  Reading
    [name.match] of something that is not a string throws. *)
Definition fanOutBody (how : FanOut) (info : emitInfo) : M Ret :=
  match em_name info with
  | JsString name =>
      let target :=
        ei_target (getEventInfo name (em_stage info) (em_target info)) in
      busFanOut target how name
  | _ => throw "TypeError"
  end.

Definition emit : emitInfo -> M Ret :=
  runnable isEventEmitalbe RetUndefined (fanOutBody Emit).

Definition emitSync : emitInfo -> M Ret :=
  runnable isEventEmitalbe RetFalse (fanOutBody EmitSync).

Definition trigger : emitInfo -> M Ret :=
  runnable isEventEmitalbe RetUndefined (fanOutBody Trigger).

Definition triggerSync : emitInfo -> M Ret :=
  runnable isEventEmitalbe RetFalse (fanOutBody TriggerSync).

Definition addPendingEvent (target : BinderTarget) (name id : string)
    (s : State) : State :=
  setPending target (get target (pendingEventsInfo s) ++ [(name, id)]) s.

Definition getTargetDom (target : BinderTarget) (s : State) : Node :=
  match target with
  | Container => container (dom (dispatcher s))
  | Wrapper => wrapper (dom (dispatcher s))
  | _ => videoElement (dom (dispatcher s))
  end.

Definition isEventNeedToBeHandled (target : BinderTarget) (name : string) : bool :=
  negb (BinderTarget_eqb target Plugin)
  && negb (BinderTarget_eqb target EsFullscreen)
  && (negb (isMustListenVideoDomEvent name)
      || negb (BinderTarget_eqb target Video)).

(** The two pushes that end [addEventListenerOnTarget]. *)
Definition pushBinding (target : BinderTarget) (name : string) (fn : NativeFn)
    (s : State) : State :=
  setInfo target (get target (bindedEventInfo s) ++ [(name, fn)])
    (setNames target (get target (bindedEventNames s) ++ [name]) s).

Definition addEventListenerOnTarget (name : string) (target : BinderTarget)
    (id : string) (s : State) : State :=
  if negb (isEventNeedToBeHandled target name) then s
  else if (indexOf name (get target (bindedEventNames s)) >? -1)%Z then s
  else
    let targetDom := getTargetDom target s in
    match target with
    | Kernel =>
        match kernel (dispatcher s) with
        | None => addPendingEvent target name id s
        | Some k =>
            let '(fn, s) := newFn (ForwardSync target name "kernel") s in
            let s := log (KernelOn k name fn) s in
            pushBinding target name fn s
        end
    | Container | Wrapper =>
        let '(fn, s) := newFn (ForwardSync target name (targetString target)) s in
        let s := addEvent targetDom name fn s in
        pushBinding target name fn s
    | Video =>
        let '(fn, s) := newFn (ForwardAsync target name (targetString target)) s in
        let s := addEvent targetDom name fn s in
        pushBinding target name fn s
    | VideoDom =>
        let '(fn, s) := newFn (ForwardSync target name (targetString target)) s in
        let s :=
          forEach (videoExtendedNodes (dom (dispatcher s)))
            (fun node => addEvent node name fn) s in
        let s := addEvent targetDom name fn s in
        pushBinding target name fn s
    | Plugin | EsFullscreen =>
        (* not reached: isEventNeedToBeHandled is false for these targets *)
        s
    end.

(** The while loop of [applyPendingEvents]; every turn pops one entry, so
    as many turns as the copy is long empty it. *)
Fixpoint applyPendingLoop (turns : nat) (pendingEventsCopy : list (string * string))
    (target : BinderTarget) (s : State) : State :=
  match turns with
  | O => s
  | S turns' =>
      match pop pendingEventsCopy with
      | None => s
      | Some ((name, id), rest) =>
          applyPendingLoop turns' rest target
            (addEventListenerOnTarget name target id s)
      end
  end.

(** [splice(0, length)] empties the array of the binder and returns its
    former content. *)
Definition applyPendingEvents (target : BinderTarget) (s : State) : State :=
  let pendingEvents := get target (pendingEventsInfo s) in
  let pendingEventsCopy := pendingEvents in
  let s := setPending target [] s in
  applyPendingLoop (List.length pendingEventsCopy) pendingEventsCopy target s.

Definition bindOrUnbind (node : Node) (remove : bool)
    (entry : string * NativeFn) : State -> State :=
  let '(name, fn) := entry in
  if remove then removeEvent node name fn else addEvent node name fn.

Definition bindEventOnPenetrateNode (node : Node) (remove : bool) (s : State)
  : State :=
  forEach (get VideoDom (bindedEventInfo s)) (bindOrUnbind node remove) s.

Definition bindEventOnVideo (node : Node) (remove : bool) (s : State) : State :=
  forEach (get VideoDom (bindedEventInfo s) ++ get Video (bindedEventInfo s))
    (bindOrUnbind node remove) s.

(** [this.dispatcher.kernel.off(name, fn)]: a property of undefined cannot
    be read. *)
Definition kernelOff (name : string) (fn : NativeFn) : M unit :=
  fun s =>
    match kernel (dispatcher s) with
    | Some k => (Ok tt, log (KernelOff k name fn) s)
    | None => (Throw "TypeError", s)
    end.

(** What [destroy] and the release after [off] do for one recorded pair of
    a target that is not the kernel. *)
Definition detachFromDom (target : BinderTarget) (targetDom : Node)
    (name : string) (fn : NativeFn) (s : State) : State :=
  let s := removeEvent targetDom name fn s in
  if BinderTarget_eqb target VideoDom
  then forEach (videoExtendedNodes (dom (dispatcher s)))
         (fun node => removeEvent node name fn) s
  else s.

Definition destroyTarget (target : BinderTarget) : M unit :=
  (if BinderTarget_eqb target Kernel
   then
     l <- gets (fun s => get Kernel (bindedEventInfo s)) ;;
     forEachM l (fun '(name, fn) => kernelOff name fn)
   else
     targetDom <- gets (getTargetDom target) ;;
     l <- gets (fun s => get target (bindedEventInfo s)) ;;
     forEachM l (fun '(name, fn) =>
       modify (detachFromDom target targetDom name fn))) ;;
  modify (setInfo Kernel []) ;;
  modify (setNames Kernel []).

Definition destroy : M unit := forEachM kinds destroyTarget.

(** The handler [listenOnMouseMoveEvent] installs for [name], called with
    a mouse event. *)
Definition mouseMoveFn (name : string) (e : MouseEvent) : M Ret :=
  fun s =>
    let to := orElse (toElement e) (relatedTarget e) in
    if mouseInVideo (dom (dispatcher s))
       && String.eqb (type e) "mouseleave"
       && negb (isNodeInsideVideo to)
    then
      triggerSync (mkEmit (JsString "_vm") (JsString name) None (Some VideoDom))
        (setMouseInVideo false s)
    else if negb (mouseInVideo (dom (dispatcher s)))
            && String.eqb (type e) "mouseenter"
            && isNodeInsideVideo (Some (currentTarget e))
    then
      triggerSync (mkEmit (JsString "_vm") (JsString name) None (Some VideoDom))
        (setMouseInVideo true s)
    else (Ok RetUndefined, s).

(** Calling a function object the binder created. *)
Definition callFn (fn : NativeFn) (e : MouseEvent) : M Ret :=
  match fn_body fn with
  | ForwardSync target name id =>
      triggerSync (mkEmit (JsString id) (JsString name) None (Some target))
  | ForwardAsync target name id =>
      trigger (mkEmit (JsString id) (JsString name) None (Some target))
  | MouseMove name => mouseMoveFn name e
  end.

Definition listenOnMouseMoveEvent (node : Node) (s : State) : State :=
  forEach mustListenVideoDomEvents
    (fun name s =>
       let '(fn, s) := newFn (MouseMove name) s in
       let s := addEvent node name fn s in
       if (indexOf name (get VideoDom (bindedEventNames s)) <? 0)%Z
       then pushBinding VideoDom name fn s
       else s)
    s.

Definition migrateKernelEvent (oldKernel newKernel : ChimeeKernel) (s : State)
  : State :=
  forEach (get Kernel (bindedEventInfo s))
    (fun '(name, fn) s =>
       log (KernelOn newKernel name fn) (log (KernelOff oldKernel name fn) s))
    s.

(** The for loop of the release: the function recorded for the first pair
    named [name], if any, and the index the loop stopped at. *)
Fixpoint findBinded (name : string) (l : list (string * NativeFn)) (index : nat)
  : option NativeFn * nat :=
  match l with
  | [] => (None, index)
  | (n, fn) :: r =>
      if String.eqb n name then (Some fn, index)
      else findBinded name r (S index)
  end.

Definition removeEventListenerOnTargetWhenIsUseless (name : string)
    (target : BinderTarget) : M unit :=
  fun s =>
    if negb (isEventNeedToBeHandled target name) then (Ok tt, s)
    else
      let eventNamesList := get target (bindedEventNames s) in
      let nameIndex := indexOf name eventNamesList in
      if (nameIndex <? 0)%Z then (Ok tt, s)
      else if busHasEvents (get target (buses s)) then (Ok tt, s)
      else
        let bindedEventInfoList := get target (bindedEventInfo s) in
        match findBinded name bindedEventInfoList 0 with
        | (None, _) => ret tt
        | (Some fn, index) =>
            (if BinderTarget_eqb target Kernel
             then kernelOff name fn
             else modify (detachFromDom target (getTargetDom target s) name fn)) ;;
            modify (setInfo target (removeAt index bindedEventInfoList)) ;;
            modify (setNames target (removeAt (Z.to_nat nameIndex) eventNamesList))
        end s.

Definition off (info : rawEventInfo) : M Ret :=
  p <- liftRes (prettifyEventParameter info) ;;
  modify (fun s =>
    setBus (w_target p)
      (busOff (w_id p) (w_name p) (w_fn p) (w_stage p)
         (get (w_target p) (buses s))) s) ;;
  removeEventListenerOnTargetWhenIsUseless (w_name p) (w_target p) ;;
  ret RetBus.

Definition on (info : rawEventInfo) : M Ret :=
  p <- liftRes (prettifyEventParameter info) ;;
  modify (addEventListenerOnTarget (w_name p) (w_target p) (w_id p)) ;;
  modify (fun s =>
    setBus (w_target p)
      (busOn (w_id p) (w_name p) (w_fn p) (w_stage p)
         (get (w_target p) (buses s))) s) ;;
  ret RetBus.

Definition once (info : rawEventInfo) : M Ret :=
  p <- liftRes (prettifyEventParameter info) ;;
  modify (fun s =>
    setBus (w_target p)
      (busOnce (w_id p) (w_name p) (w_fn p) (w_stage p)
         (get (w_target p) (buses s))) s) ;;
  ret RetBus.

End Binder.

(** ** Running the binder *)

Section Runs.
Context `{Imports} `{BusClass} `{DomClass}.

(** The state a method leaves behind, whether it returned or threw. *)
Definition exec {A} (m : M A) (s : State) : State := snd (m s).

(** The dispatcher is shared: its owner installs or drops the kernel and
    changes the overlay nodes between two calls of the binder. *)
Definition setKernel (k : option ChimeeKernel) (s : State) : State :=
  mkState (bindedEventInfo s) (bindedEventNames s) (buses s)
    (mkDispatcher (dom (dispatcher s)) k)
    (pendingEventsInfo s) (allocated s) (trace s).

Definition setVideoExtendedNodes (l : list Node) (s : State) : State :=
  let d := dom (dispatcher s) in
  mkState (bindedEventInfo s) (bindedEventNames s) (buses s)
    (mkDispatcher
       (mkDom (container d) (wrapper d) (videoElement d) l (mouseInVideo d))
       (kernel (dispatcher s)))
    (pendingEventsInfo s) (allocated s) (trace s).

(** Everything that can happen to a binder: a call of one of its public
    methods, a native event reaching one of its function objects, or a
    change of the dispatcher by its owner. *)
Inductive Op : Type :=
| OpOn (info : rawEventInfo)
| OpOnce (info : rawEventInfo)
| OpOff (info : rawEventInfo)
| OpEmit (how : FanOut) (info : emitInfo)
| OpAddPendingEvent (target : BinderTarget) (name id : string)
| OpApplyPendingEvents (target : BinderTarget)
| OpBindEventOnPenetrateNode (node : Node) (remove : bool)
| OpBindEventOnVideo (node : Node) (remove : bool)
| OpListenOnMouseMoveEvent (node : Node)
| OpMigrateKernelEvent (oldKernel newKernel : ChimeeKernel)
| OpDestroy
| OpNativeEvent (fn : NativeFn) (e : MouseEvent)
| OpSetKernel (k : option ChimeeKernel)
| OpSetVideoExtendedNodes (l : list Node).

Definition runOp (o : Op) (s : State) : State :=
  match o with
  | OpOn info => exec (on info) s
  | OpOnce info => exec (once info) s
  | OpOff info => exec (off info) s
  | OpEmit Emit info => exec (emit info) s
  | OpEmit EmitSync info => exec (emitSync info) s
  | OpEmit Trigger info => exec (trigger info) s
  | OpEmit TriggerSync info => exec (triggerSync info) s
  | OpAddPendingEvent target name id => addPendingEvent target name id s
  | OpApplyPendingEvents target => applyPendingEvents target s
  | OpBindEventOnPenetrateNode node remove =>
      bindEventOnPenetrateNode node remove s
  | OpBindEventOnVideo node remove => bindEventOnVideo node remove s
  | OpListenOnMouseMoveEvent node => listenOnMouseMoveEvent node s
  | OpMigrateKernelEvent oldKernel newKernel =>
      migrateKernelEvent oldKernel newKernel s
  | OpDestroy => exec destroy s
  | OpNativeEvent fn e => exec (callFn fn e) s
  | OpSetKernel k => setKernel k s
  | OpSetVideoExtendedNodes l => setVideoExtendedNodes l s
  end.

Definition runOps (l : list Op) (s : State) : State :=
  fold_left (fun acc o => runOp o acc) l s.

(** The registry of one target is well formed: the names are the first
    components of the pairs, in the same order, and no name occurs twice. *)
Definition registryOk (t : BinderTarget) (s : State) : Prop :=
  get t (bindedEventNames s) = map fst (get t (bindedEventInfo s))
  /\ NoDup (get t (bindedEventNames s)).

(** The closure [addEventListenerOnTarget] writes for a target. *)
Definition forwarder (target : BinderTarget) (name : string) : FnBody :=
  match target with
  | Kernel => ForwardSync target name "kernel"
  | Video => ForwardAsync target name (targetString target)
  | _ => ForwardSync target name (targetString target)
  end.

(** Whether the source a target is bound to exists: only the kernel may be
    missing. *)
Definition sourcePresent (target : BinderTarget) (s : State) : bool :=
  match target, kernel (dispatcher s) with
  | Kernel, None => false
  | _, _ => true
  end.

(** The native attachments of one function for [(target, name)]: on the
    kernel, or on the node of the target, after every overlay node when
    the target is the video surface. *)
Definition attachEffects (target : BinderTarget) (name : string)
    (fn : NativeFn) (s : State) : list Effect :=
  match target with
  | Kernel =>
      match kernel (dispatcher s) with
      | Some k => [KernelOn k name fn]
      | None => []
      end
  | VideoDom =>
      map (fun node => AddEvent node name fn)
        (videoExtendedNodes (dom (dispatcher s)))
      ++ [AddEvent (getTargetDom target s) name fn]
  | Plugin | EsFullscreen => []
  | _ => [AddEvent (getTargetDom target s) name fn]
  end.

(** The native detachments of one function for [(target, name)]. *)
Definition detachEffects (target : BinderTarget) (name : string)
    (fn : NativeFn) (s : State) : list Effect :=
  match target with
  | Kernel =>
      match kernel (dispatcher s) with
      | Some k => [KernelOff k name fn]
      | None => []
      end
  | VideoDom =>
      RemoveEvent (getTargetDom target s) name fn
      :: map (fun node => RemoveEvent node name fn)
           (videoExtendedNodes (dom (dispatcher s)))
  | _ => [RemoveEvent (getTargetDom target s) name fn]
  end.

(** Every recorded pair of the given targets, detached target after
    target. *)
Definition detachTargets (targets : list BinderTarget) (s : State)
  : list Effect :=
  flat_map
    (fun target =>
       flat_map (fun '(name, fn) => detachEffects target name fn s)
         (get target (bindedEventInfo s)))
    targets.


Definition isDetach (e : Effect) : bool :=
  match e with RemoveEvent _ _ _ | KernelOff _ _ _ => true | _ => false end.

(** A second reading of the flush, after the specification's words: the
    drained entries are replayed in the order they were enqueued. *)
Definition applyPendingEventsFifo (target : BinderTarget) (s : State) : State :=
  fold_left
    (fun acc '(name, id) => addEventListenerOnTarget name target id acc)
    (get target (pendingEventsInfo s))
    (setPending target [] s).

(** Several calls in the trace, oldest first. *)
Definition logAll (l : list Effect) (s : State) : State :=
  mkState (bindedEventInfo s) (bindedEventNames s) (buses s)
    (dispatcher s) (pendingEventsInfo s) (allocated s) (trace s ++ l).

(** The two tables of the registry. *)
Definition registry (s : State)
  : PerTarget (list (string * NativeFn)) * PerTarget (list string) :=
  (bindedEventInfo s, bindedEventNames s).

(** The state after [destroy] has gone through the given targets without
    throwing: every pair recorded for them has been detached, and the
    registry of the kernel, and only that one, has been emptied. *)
Definition destroyedUpTo (targets : list BinderTarget) (s : State) : State :=
  mkState (set Kernel [] (bindedEventInfo s)) (set Kernel [] (bindedEventNames s))
    (buses s) (dispatcher s) (pendingEventsInfo s) (allocated s)
    (trace s ++ detachTargets targets s).

(** The names [listenOnMouseMoveEvent] goes through, each with the number
    of the function object made for it. *)
Fixpoint numbered (from : nat) (l : list string) : list (nat * string) :=
  match l with
  | [] => []
  | x :: r => (from, x) :: numbered (S from) r
  end.

(** Every pair recorded for a target holds a function written for that
    target and that name: the forwarder, or, for the video surface, the
    handler of the mouse listener. *)
Definition recordedOk (t : BinderTarget) (s : State) : Prop :=
  forall name fn,
    In (name, fn) (get t (bindedEventInfo s)) ->
    fn_body fn = forwarder t name
    \/ (t = VideoDom /\ fn_body fn = MouseMove name).

(** Every pair recorded for a target satisfies [P]. *)
Definition everyRecorded (P : BinderTarget -> string -> NativeFn -> Prop)
    (t : BinderTarget) (s : State) : Prop :=
  forall name fn, In (name, fn) (get t (bindedEventInfo s)) -> P t name fn.

(** The binder itself queues for the kernel only; [addPendingEvent] is
    public and takes any target. *)
Definition queuesForKernelOnly (o : Op) : bool :=
  match o with
  | OpAddPendingEvent target _ _ => BinderTarget_eqb target Kernel
  | _ => true
  end.

(** How the state moves while kernel events are bound to the kernel [k]:
    the dispatcher and the pending lists stay, the trace and the registry
    of the kernel only grow, and every name bound on the way has its
    function attached to [k] and recorded. *)
Definition boundOnKernel (k : ChimeeKernel) (s s' : State) : Prop :=
  dispatcher s' = dispatcher s
  /\ pendingEventsInfo s' = pendingEventsInfo s
  /\ (forall x, In x (trace s) -> In x (trace s'))
  /\ (forall x, In x (get Kernel (bindedEventInfo s)) ->
                In x (get Kernel (bindedEventInfo s')))
  /\ (forall x, In x (get Kernel (bindedEventNames s)) ->
                In x (get Kernel (bindedEventNames s')))
  /\ (forall name,
        In name (get Kernel (bindedEventNames s')) ->
        In name (get Kernel (bindedEventNames s))
        \/ exists fn,
             In (KernelOn k name fn) (trace s')
             /\ In (name, fn) (get Kernel (bindedEventInfo s'))).

(** Mouse events reaching the handlers of the mouse listener, one after
    the other: the page calls the handler registered under the type of the
    event. *)
Definition dispatchMouseEvents (events : list MouseEvent) (s : State) : State :=
  fold_left (fun acc e => exec (mouseMoveFn (type e) e) acc) events s.

(** [n] synthetic events in turn, starting with a leave when the pointer is
    inside and with an enter when it is outside. *)
Fixpoint synthetic (inside : bool) (n : nat) : list Effect :=
  match n with
  | O => []
  | S k =>
      BusFanOut VideoDom TriggerSync
        (if inside then "mouseleave" else "mouseenter")
      :: synthetic (negb inside) k
  end.

End Runs.

(** ** A bus, tables and a page to run the code on *)

(** Modelled from the spec: dispatcher/bus is not part of the sources.  A
    bus owns the list of logical subscribers of its target; [on] and [once]
    add one, [off] removes the matching ones, and [hasEvents] is true if any
    logical subscriber remains, whatever its name, id or stage. *)
Record Subscription : Type := mkSub {
  sub_id : string;
  sub_name : string;
  sub_fn : JsValue;
  sub_stage : EventStage;
  sub_once : bool
}.

Definition EventStage_eqb (a b : EventStage) : bool :=
  match a, b with
  | StBefore, StBefore | StAfter, StAfter | StMain, StMain
  | StInternal, StInternal => true
  | _, _ => false
  end.

(** [a === b] for two handlers: function objects are equal when they are
    the same object. *)
Definition sameHandler (a b : JsValue) : bool :=
  match a, b with
  | JsFunction h, JsFunction k => Nat.eqb h k
  | _, _ => false
  end.

Definition sameSubscription (id name : string) (fn : JsValue)
    (stage : EventStage) (x : Subscription) : bool :=
  String.eqb (sub_id x) id && String.eqb (sub_name x) name
  && sameHandler (sub_fn x) fn && EventStage_eqb (sub_stage x) stage.

#[export] Instance ListBus : BusClass := {
  Bus := list Subscription;
  newBus := fun _ => [];
  busOn := fun id name fn stage b => b ++ [mkSub id name fn stage false];
  busOnce := fun id name fn stage b => b ++ [mkSub id name fn stage true];
  busOff := fun id name fn stage b =>
    filter (fun x => negb (sameSubscription id name fn stage x)) b;
  busHasEvents := fun b => match b with [] => false | _ :: _ => true end
}.

(** The subscribers of a name on such a bus. *)
Definition subscribersOf (name : string) (b : list Subscription)
  : list Subscription :=
  filter (fun x => String.eqb (sub_name x) name) b.

(** The lower case of an ASCII letter. *)
Definition lowerAscii (c : ascii) : ascii :=
  let n := nat_of_ascii c in
  if (65 <=? n)%nat && (n <=? 90)%nat then ascii_of_nat (n + 32) else c.

Fixpoint lowerCase (s : string) : string :=
  match s with
  | EmptyString => EmptyString
  | String c r => String (lowerAscii c) (lowerCase r)
  end.

(** Tables in the shape of const/event, and what [camelCase] does to a
    single word of ASCII letters. *)
#[export] Instance sampleImports : Imports := {
  videoEvents := ["pause"; "timeupdate"];
  kernelEvents := ["play"; "heartbeat"; "error"];
  domEvents := ["click"; "mouseenter"; "mouseleave"];
  esFullscreenEvents := ["fullscreenchange"];
  mustListenVideoDomEvents := ["mouseenter"; "mouseleave"];
  isMustListenVideoDomEvent := fun name =>
    (indexOf name ["mouseenter"; "mouseleave"] >? -1)%Z;
  camelCase := lowerCase
}.

(** A page: the video element is node 1 under wrapper 2 and container 3,
    nodes 4 and 5 are overlays, and the region of the video is made of the
    element and its overlays. *)
#[export] Instance samplePage : DomClass := {
  isNodeInsideVideo := fun node =>
    match node with
    | Some n => Nat.eqb n 1 || Nat.eqb n 4 || Nat.eqb n 5
    | None => false
    end
}.

Definition sampleDom : Dom := mkDom 3 2 1 [4; 5] false.

Definition sampleDispatcher (k : option ChimeeKernel) : Dispatcher :=
  mkDispatcher sampleDom k.

(** ** Scenarios *)

(** Two subscribers of the same plugin event, on a page with a kernel. *)
Definition pluginSubscriptions : list rawEventInfo :=
  [mkRaw (JsFunction 100) "a" "custom" None (Some Plugin);
   mkRaw (JsFunction 101) "b" "custom" None (Some Plugin)].

Definition pluginState : State :=
  runOps (map OpOn pluginSubscriptions) (newBinder (sampleDispatcher (Some 7))).


(** Two subscribers of two events of the container; then the first one
    leaves. *)
Definition containerState : State :=
  runOps
    [OpOn (mkRaw (JsFunction 100) "a" "click" None (Some Container));
     OpOn (mkRaw (JsFunction 101) "b" "dblclick" None (Some Container))]
    (newBinder (sampleDispatcher (Some 7))).

Definition clickLeaves : rawEventInfo :=
  mkRaw (JsFunction 100) "a" "click" None (Some Container).

Definition clickLeftState : State :=
  runOps
    [OpOn (mkRaw (JsFunction 100) "a" "click" None (Some Container));
     OpOn (mkRaw (JsFunction 101) "b" "dblclick" None (Some Container));
     OpOff clickLeaves]
    (newBinder (sampleDispatcher (Some 7))).

Definition dblclickLeaves : rawEventInfo :=
  mkRaw (JsFunction 101) "b" "dblclick" None (Some Container).

(** Two kernel events asked for before the kernel exists; then the kernel
    arrives. *)
Definition earlyKernelState : State :=
  runOps
    [OpOn (mkRaw (JsFunction 100) "a" "heartbeat" None (Some Kernel));
     OpOn (mkRaw (JsFunction 101) "b" "mediaInfo" None (Some Kernel));
     OpSetKernel (Some 7)]
    (newBinder (sampleDispatcher None)).

(** The same two requests, the kernel still missing. *)
Definition waitingKernelState : State :=
  runOps
    [OpOn (mkRaw (JsFunction 100) "a" "heartbeat" None (Some Kernel));
     OpOn (mkRaw (JsFunction 101) "b" "mediaInfo" None (Some Kernel))]
    (newBinder (sampleDispatcher None)).

(** The mouse listener has been installed once on the video element. *)
Definition mouseState : State :=
  runOps [OpListenOnMouseMoveEvent 1] (newBinder (sampleDispatcher (Some 7))).

(** A kernel event bound on kernel 7; then the dispatcher loses its
    kernel. *)
Definition heartbeat : rawEventInfo :=
  mkRaw (JsFunction 100) "a" "heartbeat" None (Some Kernel).

Definition kernelGoneState : State :=
  runOps [OpOn heartbeat; OpSetKernel None]
    (newBinder (sampleDispatcher (Some 7))).

(** The pointer comes onto overlay 4 from the container, moves on to the
    video element, and leaves the element for the container. *)
Definition pointerEnters : MouseEvent := mkMouseEvent None 4 (Some 3) "mouseenter".
Definition pointerStays : MouseEvent := mkMouseEvent None 4 (Some 1) "mouseleave".
Definition pointerLeaves : MouseEvent := mkMouseEvent None 1 (Some 3) "mouseleave".

(** * Properties *)

(** ** Tables and arrays *)

Lemma BinderTarget_eqb_spec (a b : BinderTarget) :
  reflect (a = b) (BinderTarget_eqb a b).
Proof. destruct a, b; simpl; constructor; congruence. Qed.

Lemma get_set_same {X} (t : BinderTarget) (x : X) (m : PerTarget X) :
  get t (set t x m) = x.
Proof. now destruct t. Qed.

Lemma get_set_other {X} (t u : BinderTarget) (x : X) (m : PerTarget X) :
  t <> u -> get u (set t x m) = get u m.
Proof. destruct t, u; simpl; congruence. Qed.

Lemma get_init {X} (f : BinderTarget -> X) (t : BinderTarget) :
  get t (init f) = f t.
Proof. now destruct t. Qed.

Lemma indexOfFrom_range (x : string) (l : list string) (i : Z) :
  indexOfFrom i x l = (-1)%Z
  \/ (i <= indexOfFrom i x l < i + Z.of_nat (length l))%Z.
Proof.
  revert i; induction l as [|y r IH]; intros i; simpl.
  - now left.
  - destruct (String.eqb y x).
    + right; lia.
    + destruct (IH (i + 1)%Z) as [E|E]; [now left | right; lia].
Qed.

Lemma indexOfFrom_absent (x : string) (l : list string) (i : Z) :
  (0 <= i)%Z -> (indexOfFrom i x l = (-1)%Z <-> ~ In x l).
Proof.
  revert i; induction l as [|y r IH]; intros i Hi; simpl.
  - tauto.
  - destruct (String.eqb_spec y x) as [->|Hne].
    + split; [lia | intros Hn; exfalso; apply Hn; now left].
    + rewrite (IH (i + 1)%Z) by lia. intuition congruence.
Qed.

Lemma indexOf_bound_iff (x : string) (l : list string) :
  (indexOf x l >? -1)%Z = true <-> In x l.
Proof.
  unfold indexOf.
  destruct (indexOfFrom_range x l 0) as [E|E].
  - rewrite E. split; [discriminate|].
    intros Hin. apply (indexOfFrom_absent x l 0) in E; [tauto | lia].
  - split; [|intros _; apply Z.gtb_lt; lia].
    intros _. destruct (in_dec string_dec x l) as [Hin|Hn]; [exact Hin|].
    apply (indexOfFrom_absent x l 0) in Hn; lia.
Qed.

Lemma indexOf_unbound_iff (x : string) (l : list string) :
  (indexOf x l <? 0)%Z = true <-> ~ In x l.
Proof.
  rewrite <- (indexOfFrom_absent x l 0) by lia. fold (indexOf x l).
  destruct (indexOfFrom_range x l 0) as [E|E]; fold (indexOf x l) in E.
  - rewrite E. now split.
  - split; [intros Hlt; apply Z.ltb_lt in Hlt; lia | intros Heq; lia].
Qed.

Lemma indexOf_tests_agree (x : string) (l : list string) :
  (indexOf x l <? 0)%Z = negb (indexOf x l >? -1)%Z.
Proof.
  destruct (indexOf x l <? 0)%Z eqn:E1, (indexOf x l >? -1)%Z eqn:E2;
    try reflexivity.
  - apply Z.ltb_lt in E1. apply Z.gtb_lt in E2. lia.
  - apply Z.ltb_ge in E1. rewrite Z.gtb_ltb in E2. apply Z.ltb_ge in E2. lia.
Qed.

Lemma pop_snoc {A} (l : list A) (x : A) : pop (l ++ [x]) = Some (x, l).
Proof.
  induction l as [|y r IH]; simpl; [reflexivity|].
  rewrite IH. destruct (r ++ [x]) eqn:E; [|reflexivity].
  now destruct r.
Qed.

(** ** The resolver *)

Section ResolverFacts.
Context `{Imports}.

(** C7. Resolution is a function of the name, the stage and the target it is
    given, so equal inputs give equal outputs; 'c_play' resolves to the name
    'play' on the container in the main stage, 'beforePlay' to the name
    'play' in the before stage with the target the tables give for 'play',
    which is the kernel when 'play' is a kernel event and not a video event,
    and 'error' to the name 'error' on the kernel in the main stage.  The
    lower-casing of 'Play' is what lodash's camelCase does. *)
Theorem getEventInfo_examples :
  camelCase "Play" = "play" ->
  getEventInfo "c_play" None None = mkInfo "play" StMain Container
  /\ getEventInfo "beforePlay" None None
     = mkInfo "play" StBefore (getEventTargetByEventName "play")
  /\ ((indexOf "play" videoEvents >? -1)%Z = false ->
      (indexOf "play" kernelEvents >? -1)%Z = true ->
      getEventInfo "beforePlay" None None = mkInfo "play" StBefore Kernel)
  /\ getEventInfo "error" None None = mkInfo "error" StMain Kernel
  /\ (forall name name' stage stage' target target',
        name = name' -> stage = stage' -> target = target' ->
        getEventInfo name stage target = getEventInfo name' stage' target').
Proof.
  intros Hcc.
  assert (Hbefore : getEventInfo "beforePlay" None None
                    = mkInfo "play" StBefore (getEventTargetByEventName "play")).
  { unfold getEventInfo. simpl.
    change (stripPrefix secondaryEventReg "beforePlay") with "Play".
    now rewrite Hcc. }
  split; [reflexivity|]. split; [exact Hbefore|].
  split; [|split; [reflexivity | intros; now subst]].
  intros Hv Hk. rewrite Hbefore.
  unfold getEventTargetByEventName. now rewrite Hv, Hk.
Qed.

(** C8. A stage supplied by the caller is the stage of the result whatever
    the stage prefix says; a target supplied by the caller is never replaced
    by the one the membership lists give: the result has the caller's
    target, or the target of the legacy prefix when the name has one; and
    with no target supplied the legacy prefix decides when the name has
    one, the membership lists otherwise. *)
Theorem explicit_stage_and_target_win
    (name : string) (stage : option EventStage) (target : option BinderTarget)
    (s : EventStage) (t : BinderTarget) :
  ei_stage (getEventInfo name (Some s) target) = s
  /\ ei_target (getEventInfo name stage (Some t))
     = match getEventTargetByOldLogic name with
       | Some o => snd o
       | None => t
       end
  /\ ei_target (getEventInfo name stage None)
     = match getEventTargetByOldLogic name with
       | Some o => snd o
       | None => getEventTargetByEventName (ei_name (getEventInfo name stage None))
       end.
Proof.
  unfold getEventInfo.
  destruct (getEventTargetByOldLogic name) as [[n' t']|]; simpl.
  - destruct (getEventStage n'); simpl. auto.
  - destruct (getEventStage name); simpl. auto.
Qed.

End ResolverFacts.

(** ** Emission *)

Section EmissionFacts.
Context `{Imports} `{BusClass} `{DomClass}.

Lemma isEventEmitalbe_true (info : emitInfo) :
  isEventEmitalbe info = true ->
  exists id name,
    em_id info = JsString id /\ em_name info = JsString name
    /\ id <> "" /\ name <> "" /\ matchPrefix secondaryEventReg name = None.
Proof.
  unfold isEventEmitalbe.
  destruct (em_name info) as [| |b|z|n|h|];
    cbn [falsy isString negb orb]; try discriminate;
    try (destruct b; discriminate);
    try (destruct (Z.eqb z 0); discriminate).
  destruct (String.eqb_spec n ""); cbn [orb]; [discriminate|].
  destruct (matchPrefix secondaryEventReg n) eqn:Em; [discriminate|].
  destruct (em_id info) as [| |b|z|i|h|];
    cbn [falsy isString negb orb]; try discriminate;
    try (destruct b; discriminate);
    try (destruct (Z.eqb z 0); discriminate).
  destruct (String.eqb_spec i ""); cbn [orb]; [discriminate|].
  intros _. exists i, n. auto.
Qed.

(** C9. When the name is missing, is not a string or starts with a stage
    prefix, or the id is missing or is not a string, the guard rejects the
    call; emit and trigger then return undefined and emitSync and
    triggerSync return false, none of them throws, and the state, trace of
    bus calls included, is the one before the call. *)
Theorem invalid_emission_is_rejected (info : emitInfo) (s : State) :
  em_name info = JsUndefined
  \/ isString (em_name info) = false
  \/ (exists n, em_name info = JsString n
                /\ matchPrefix secondaryEventReg n <> None)
  \/ em_id info = JsUndefined
  \/ isString (em_id info) = false ->
  emit info s = (Ok RetUndefined, s)
  /\ trigger info s = (Ok RetUndefined, s)
  /\ emitSync info s = (Ok RetFalse, s)
  /\ triggerSync info s = (Ok RetFalse, s).
Proof.
  intros Hbad.
  assert (Hguard : isEventEmitalbe info = false).
  { destruct (isEventEmitalbe info) eqn:E; [|reflexivity].
    destruct (isEventEmitalbe_true info E)
      as (id & name & Hid & Hname & _ & _ & Hm).
    rewrite Hid, Hname in Hbad.
    destruct Hbad as [Hb|[Hb|[(n & Hn & Hp)|[Hb|Hb]]]]; try discriminate.
    injection Hn as <-. contradiction. }
  unfold emit, trigger, emitSync, triggerSync, runnable.
  rewrite Hguard. auto.
Qed.

(** C10. A call the guard accepts is handed to the bus of the resolved
    target, legacy prefix and membership lists included, under the name the
    caller wrote, not the resolved one. *)
Theorem fan_out_keeps_the_raw_name
    (id name : string) (stage : option EventStage)
    (target : option BinderTarget) (s : State) :
  isEventEmitalbe (mkEmit (JsString id) (JsString name) stage target) = true ->
  let info := mkEmit (JsString id) (JsString name) stage target in
  let resolved := ei_target (getEventInfo name stage target) in
  emit info s = (Ok RetBus, log (BusFanOut resolved Emit name) s)
  /\ emitSync info s = (Ok RetBus, log (BusFanOut resolved EmitSync name) s)
  /\ trigger info s = (Ok RetBus, log (BusFanOut resolved Trigger name) s)
  /\ triggerSync info s
     = (Ok RetBus, log (BusFanOut resolved TriggerSync name) s).
Proof.
  intros Hguard info resolved.
  unfold emit, emitSync, trigger, triggerSync, runnable.
  subst info. rewrite Hguard. repeat split.
Qed.

(** C6. With the pointer recorded as outside, a mouseenter on a node of the
    video region sets the flag and makes one synchronous trigger of
    mouseenter on the bus of the video surface; from there a mouseleave
    towards a node of the region changes nothing, and a mouseleave towards
    a node outside clears the flag and makes one synchronous trigger of
    mouseleave; in every other combination of flag, event type and nodes
    the handler changes nothing and triggers nothing. *)
Theorem containment_state_machine
    (s : State) (enter leave stay : MouseEvent) :
  mouseInVideo (dom (dispatcher s)) = false ->
  type enter = "mouseenter" ->
  isNodeInsideVideo (Some (currentTarget enter)) = true ->
  type stay = "mouseleave" ->
  isNodeInsideVideo (orElse (toElement stay) (relatedTarget stay)) = true ->
  type leave = "mouseleave" ->
  isNodeInsideVideo (orElse (toElement leave) (relatedTarget leave)) = false ->
  let s1 := log (BusFanOut VideoDom TriggerSync "mouseenter")
              (setMouseInVideo true s) in
  let s2 := log (BusFanOut VideoDom TriggerSync "mouseleave")
              (setMouseInVideo false s1) in
  mouseMoveFn "mouseenter" enter s = (Ok RetBus, s1)
  /\ mouseMoveFn "mouseleave" stay s1 = (Ok RetUndefined, s1)
  /\ mouseMoveFn "mouseleave" leave s1 = (Ok RetBus, s2)
  /\ mouseInVideo (dom (dispatcher s2)) = false
  /\ trace s2
     = trace s ++ [BusFanOut VideoDom TriggerSync "mouseenter";
                   BusFanOut VideoDom TriggerSync "mouseleave"]
  /\ (forall (name : string) (e : MouseEvent) (s' : State),
        negb (mouseInVideo (dom (dispatcher s')))
        && String.eqb (type e) "mouseenter"
        && isNodeInsideVideo (Some (currentTarget e)) = false ->
        mouseInVideo (dom (dispatcher s'))
        && String.eqb (type e) "mouseleave"
        && negb (isNodeInsideVideo (orElse (toElement e) (relatedTarget e)))
        = false ->
        mouseMoveFn name e s' = (Ok RetUndefined, s')).
Proof.
  intros Hout Henter Hin Hstay Hstill Hleave Hgone s1 s2.
  split.
  { unfold mouseMoveFn. rewrite Hout, Henter, Hin. reflexivity. }
  split.
  { unfold mouseMoveFn. simpl. rewrite Hstay, Hstill. reflexivity. }
  split.
  { unfold mouseMoveFn. simpl. rewrite Hleave, Hgone. reflexivity. }
  split; [reflexivity|].
  split.
  { simpl. rewrite <- app_assoc. reflexivity. }
  intros name e s' Hno1 Hno2. unfold mouseMoveFn.
  rewrite Hno2, Hno1. reflexivity.
Qed.

End EmissionFacts.

(** ** The pending queue *)

Section PendingFacts.
Context `{Imports} `{BusClass} `{DomClass}.

Lemma set_set {X} (t : BinderTarget) (x y : X) (m : PerTarget X) :
  set t x (set t y m) = set t x m.
Proof. now destruct t. Qed.

Lemma setPending_setPending (t : BinderTarget) (x y : list (string * string))
    (s : State) :
  setPending t x (setPending t y s) = setPending t x s.
Proof. unfold setPending; simpl. now rewrite set_set. Qed.

Lemma isEventNeedToBeHandled_cases (target : BinderTarget) (name : string) :
  isEventNeedToBeHandled target name
  = match target with
    | Plugin | EsFullscreen => false
    | Video => negb (isMustListenVideoDomEvent name)
    | _ => true
    end.
Proof.
  unfold isEventNeedToBeHandled.
  destruct target; simpl; try reflexivity;
    destruct (isMustListenVideoDomEvent name); reflexivity.
Qed.

(** With as many turns as the copy is long, or more, the loop stops because
    the copy is empty, having taken its entries from the last to the
    first. *)
Lemma applyPendingLoop_exhausts (target : BinderTarget)
    (copy : list (string * string)) :
  forall (turns : nat) (s : State),
    length copy <= turns ->
    applyPendingLoop turns copy target s
    = fold_left
        (fun acc '(name, id) => addEventListenerOnTarget name target id acc)
        (rev copy) s.
Proof.
  induction copy as [|x l IH] using rev_ind; intros turns s Hlen.
  - destruct turns; reflexivity.
  - rewrite length_app in Hlen; simpl in Hlen.
    destruct turns as [|turns]; [lia|].
    simpl. rewrite pop_snoc. destruct x as [name id].
    rewrite IH by lia. rewrite rev_app_distr. reflexivity.
Qed.

(** While the kernel is missing, asking for a kernel event that is not
    bound only queues it. *)
Lemma addEventListenerOnTarget_without_kernel (name id : string) (s : State) :
  kernel (dispatcher s) = None ->
  addEventListenerOnTarget name Kernel id s
  = if (indexOf name (get Kernel (bindedEventNames s)) >? -1)%Z then s
    else addPendingEvent Kernel name id s.
Proof.
  intros Hk. unfold addEventListenerOnTarget.
  rewrite isEventNeedToBeHandled_cases. simpl. now rewrite Hk.
Qed.

Lemma requeue_without_kernel (s : State) (l acc : list (string * string)) :
  kernel (dispatcher s) = None ->
  fold_left
    (fun st '(name, id) => addEventListenerOnTarget name Kernel id st)
    l (setPending Kernel acc s)
  = setPending Kernel
      (acc ++ filter
                (fun '(name, _) =>
                   negb (indexOf name (get Kernel (bindedEventNames s)) >? -1)%Z)
                l)
      s.
Proof.
  intros Hk. revert acc.
  induction l as [|[name id] l IH]; intros acc; cbn [fold_left filter].
  - now rewrite app_nil_r.
  - rewrite addEventListenerOnTarget_without_kernel by exact Hk.
    cbn [setPending bindedEventNames].
    destruct (indexOf name (get Kernel (bindedEventNames s)) >? -1)%Z;
      cbn [negb].
    + apply IH.
    + unfold addPendingEvent. cbn [setPending pendingEventsInfo].
      rewrite get_set_same.
      change (mkState (bindedEventInfo s) (bindedEventNames s) (buses s)
                (dispatcher s)
                (set Kernel (acc ++ [(name, id)])
                   (set Kernel acc (pendingEventsInfo s)))
                (allocated s) (trace s))
        with (setPending Kernel (acc ++ [(name, id)]) (setPending Kernel acc s)).
      rewrite setPending_setPending, IH, <- app_assoc. reflexivity.
Qed.

(** C3, as the code has it. The flush first empties the pending list of the
    target and then replays the drained entries through the attachment
    path from the last enqueued to the first; the loop ends because the
    copy is exhausted; and entries the replay pushes while the kernel is
    still missing land in the emptied list, in that reversed order, without
    being replayed by the same flush. *)
Theorem applyPendingEvents_replays_newest_first
    (target : BinderTarget) (s : State) :
  applyPendingEvents target s
  = fold_left
      (fun acc '(name, id) => addEventListenerOnTarget name target id acc)
      (rev (get target (pendingEventsInfo s)))
      (setPending target [] s)
  /\ (forall turns,
        length (get target (pendingEventsInfo s)) <= turns ->
        applyPendingLoop turns (get target (pendingEventsInfo s)) target
          (setPending target [] s)
        = applyPendingEvents target s)
  /\ (kernel (dispatcher s) = None ->
      applyPendingEvents Kernel s
      = setPending Kernel
          (filter
             (fun '(name, _) =>
                negb (indexOf name (get Kernel (bindedEventNames s)) >? -1)%Z)
             (rev (get Kernel (pendingEventsInfo s))))
          s).
Proof.
  assert (Hflush : forall t,
    applyPendingEvents t s
    = fold_left
        (fun acc '(name, id) => addEventListenerOnTarget name t id acc)
        (rev (get t (pendingEventsInfo s)))
        (setPending t [] s)).
  { intros t. unfold applyPendingEvents.
    now rewrite applyPendingLoop_exhausts by lia. }
  split; [apply Hflush|]. split.
  - intros turns Hlen. rewrite Hflush.
    now apply applyPendingLoop_exhausts.
  - intros Hk. rewrite Hflush.
    now rewrite requeue_without_kernel by exact Hk.
Qed.

End PendingFacts.

(** ** The registry of native listeners *)

Section RegistryFacts.
Context `{Imports} `{BusClass} `{DomClass}.

Lemma state_eta (s : State) :
  mkState (bindedEventInfo s) (bindedEventNames s) (buses s) (dispatcher s)
    (pendingEventsInfo s) (allocated s) (trace s) = s.
Proof. now destruct s. Qed.

Lemma logAll_nil (s : State) : logAll [] s = s.
Proof. unfold logAll. rewrite app_nil_r. apply state_eta. Qed.

Lemma log_logAll (e : Effect) (s : State) : log e s = logAll [e] s.
Proof. reflexivity. Qed.

Lemma logAll_logAll (l1 l2 : list Effect) (s : State) :
  logAll l2 (logAll l1 s) = logAll (l1 ++ l2) s.
Proof. unfold logAll; simpl. now rewrite app_assoc. Qed.

Lemma forEach_logs {A} (l : list A) (e : A -> Effect) (s : State) :
  forEach l (fun x => log (e x)) s = logAll (map e l) s.
Proof.
  unfold forEach. revert s. induction l as [|x l IH]; intros s; simpl.
  - now rewrite logAll_nil.
  - rewrite IH, log_logAll, logAll_logAll. reflexivity.
Qed.

Lemma forEach_registry {A} (l : list A) (f : A -> State -> State) (s : State) :
  (forall x st, registry (f x st) = registry st) ->
  registry (forEach l f s) = registry s.
Proof.
  intros Hf. unfold forEach. revert s.
  induction l as [|x l IH]; intros s; simpl; [reflexivity|].
  now rewrite IH, Hf.
Qed.

Lemma registryOk_registry (t : BinderTarget) (s s' : State) :
  registry s' = registry s -> registryOk t s -> registryOk t s'.
Proof.
  unfold registry, registryOk. intros E. injection E as E1 E2.
  now rewrite E1, E2.
Qed.

Lemma map_fst_removeAt {A B} (k : nat) (l : list (A * B)) :
  map fst (removeAt k l) = removeAt k (map fst l).
Proof.
  revert k; induction l as [|x l IH]; intros [|k]; simpl; try reflexivity.
  now rewrite IH.
Qed.

Lemma In_removeAt {A} (k : nat) (l : list A) (x : A) :
  In x (removeAt k l) -> In x l.
Proof.
  revert k; induction l as [|y l IH]; intros [|k]; simpl; auto.
  intros [E|Hin]; [now left | right; eauto].
Qed.

Lemma NoDup_removeAt {A} (k : nat) (l : list A) :
  NoDup l -> NoDup (removeAt k l).
Proof.
  revert k; induction l as [|y l IH]; intros [|k] Hnd; simpl;
    try constructor; inversion Hnd; subst; auto.
  intros Hin. apply In_removeAt in Hin. contradiction.
Qed.

(** In a list without repetition, removing the place of the first
    occurrence of a name removes the name. *)
Lemma removeAt_indexOf_absent (name : string) (l : list string) (i : Z) :
  NoDup l -> (0 <= i)%Z -> In name l ->
  ~ In name (removeAt (Z.to_nat (indexOfFrom i name l - i)) l).
Proof.
  revert i. induction l as [|y l IH]; intros i Hnd Hi Hin; [contradiction|].
  inversion Hnd as [|? ? Hny Hnd']; subst. simpl.
  destruct (String.eqb_spec y name) as [->|Hne].
  - rewrite Z.sub_diag. simpl. exact Hny.
  - destruct Hin as [E|Hin]; [contradiction|].
    assert (Hpos : (i + 1 <= indexOfFrom (i + 1) name l)%Z).
    { destruct (indexOfFrom_range name l (i + 1)) as [E|E]; [|lia].
      apply indexOfFrom_absent in E; [contradiction | lia]. }
    replace (Z.to_nat (indexOfFrom (i + 1) name l - i))
      with (S (Z.to_nat (indexOfFrom (i + 1) name l - (i + 1)))) by lia.
    simpl. intros [E|Hin']; [contradiction|].
    revert Hin'. apply IH; auto; lia.
Qed.

(** On a well-formed registry the for loop of the release finds a function
    exactly when the name is bound, and stops at the index [indexOf] gives
    for the name. *)
Lemma findBinded_indexOf (name : string) (l : list (string * NativeFn)) (i : nat) :
  match findBinded name l i with
  | (Some fn, index) =>
      indexOfFrom (Z.of_nat i) name (map fst l) = Z.of_nat index
      /\ In (name, fn) l
  | (None, _) => indexOfFrom (Z.of_nat i) name (map fst l) = (-1)%Z
  end.
Proof.
  revert i. induction l as [|[n fn] l IH]; intros i; simpl; [reflexivity|].
  destruct (String.eqb_spec n name) as [->|Hne].
  - split; [reflexivity | now left].
  - specialize (IH (S i)).
    replace (Z.of_nat i + 1)%Z with (Z.of_nat (S i)) by lia.
    destruct (findBinded name l (S i)) as [[fn'|] index]; [|exact IH].
    destruct IH as [E Hin]. split; [exact E | now right].
Qed.

(** What [addEventListenerOnTarget] does, case by case: nothing for a
    target that is not bound here or a name already bound; a push on the
    pending list when the kernel is missing; otherwise one new function,
    its native attachments, and the two pushes on the registry. *)
Lemma addEventListenerOnTarget_cases (name : string) (t : BinderTarget)
    (id : string) (s : State) :
  addEventListenerOnTarget name t id s
  = if negb (isEventNeedToBeHandled t name)
       || (indexOf name (get t (bindedEventNames s)) >? -1)%Z
    then s
    else if sourcePresent t s
    then
      let fn := mkFn (allocated s) (forwarder t name) in
      pushBinding t name fn
        (logAll (attachEffects t name fn s) (snd (newFn (forwarder t name) s)))
    else addPendingEvent t name id s.
Proof.
  unfold addEventListenerOnTarget.
  rewrite isEventNeedToBeHandled_cases.
  destruct t; cbn [negb orb]; try reflexivity;
    try (destruct (negb (isMustListenVideoDomEvent name)); cbn [negb orb];
         [|reflexivity]);
    destruct (indexOf name _ >? -1)%Z; try reflexivity;
    unfold sourcePresent; cbn [forwarder attachEffects];
    try (destruct (kernel (dispatcher s)); reflexivity).
  cbn zeta. unfold addEvent at 1.
  unfold newFn. cbn [fst snd]. unfold addEvent.
  rewrite forEach_logs, log_logAll, logAll_logAll. reflexivity.
Qed.

Lemma pushBinding_registryOk (t u : BinderTarget) (name : string)
    (fn : NativeFn) (s : State) :
  ~ In name (get t (bindedEventNames s)) ->
  registryOk u s -> registryOk u (pushBinding t name fn s).
Proof.
  unfold registryOk, pushBinding. cbn.
  intros Hfresh [Hmap Hnd].
  destruct (BinderTarget_eqb_spec t u) as [->|Hne].
  - rewrite !get_set_same. split.
    + rewrite map_app, Hmap. reflexivity.
    + apply NoDup_app; [exact Hnd | repeat constructor; simpl; tauto |].
      intros x Hx [<-|[]]. contradiction.
  - rewrite !get_set_other by exact Hne. now split.
Qed.

Lemma addEventListenerOnTarget_registryOk (name : string) (t u : BinderTarget)
    (id : string) (s : State) :
  registryOk u s -> registryOk u (addEventListenerOnTarget name t id s).
Proof.
  intros Hok. rewrite addEventListenerOnTarget_cases.
  destruct (negb (isEventNeedToBeHandled t name)); cbn [orb]; [exact Hok|].
  destruct (indexOf name (get t (bindedEventNames s)) >? -1)%Z eqn:Eb;
    [exact Hok|].
  destruct (sourcePresent t s); [|exact Hok].
  cbn zeta. apply pushBinding_registryOk; [|exact Hok].
  cbn. intros Hin. apply indexOf_bound_iff in Hin. congruence.
Qed.

Lemma on_returns (info : rawEventInfo) (p : wholeEventInfo) (s : State) :
  prettifyEventParameter info = Ok p ->
  on info s
  = (Ok RetBus,
     let s1 := addEventListenerOnTarget (w_name p) (w_target p) (w_id p) s in
     setBus (w_target p)
       (busOn (w_id p) (w_name p) (w_fn p) (w_stage p)
          (get (w_target p) (buses s1))) s1).
Proof. intros Hp. unfold on, bind, liftRes. now rewrite Hp. Qed.



Lemma detachFromDom_logs (t : BinderTarget) (name : string) (fn : NativeFn)
    (s : State) :
  t <> Kernel ->
  detachFromDom t (getTargetDom t s) name fn s
  = logAll (detachEffects t name fn s) s.
Proof.
  intros Hne. unfold detachFromDom, removeEvent.
  destruct t; try contradiction; cbn [BinderTarget_eqb detachEffects];
    try apply log_logAll.
  cbn [log dispatcher]. fold (log (RemoveEvent (getTargetDom VideoDom s) name fn) s).
  rewrite forEach_logs, log_logAll, logAll_logAll. reflexivity.
Qed.

Lemma kernelOff_logs (name : string) (fn : NativeFn) (s : State) :
  sourcePresent Kernel s = true ->
  kernelOff name fn s = (Ok tt, logAll (detachEffects Kernel name fn s) s).
Proof.
  unfold sourcePresent, kernelOff. cbn [detachEffects].
  destruct (kernel (dispatcher s)); [reflexivity | discriminate].
Qed.

(** The release after [off], on a well-formed registry whose source
    exists: when the target is bound here, the name is bound and the bus
    reports no event at all, the recorded function is detached and its
    entry leaves both tables; otherwise nothing happens. *)
Lemma release_cases (name : string) (t : BinderTarget) (s : State) :
  registryOk t s ->
  sourcePresent t s = true ->
  removeEventListenerOnTargetWhenIsUseless name t s
  = (Ok tt,
     if isEventNeedToBeHandled t name
        && (indexOf name (get t (bindedEventNames s)) >? -1)%Z
        && negb (busHasEvents (get t (buses s)))
     then
       match findBinded name (get t (bindedEventInfo s)) 0 with
       | (Some fn, index) =>
           setNames t (removeAt index (get t (bindedEventNames s)))
             (setInfo t (removeAt index (get t (bindedEventInfo s)))
                (logAll (detachEffects t name fn s) s))
       | (None, _) => s
       end
     else s).
Proof.
  intros [Hmap Hnd] Hsrc. unfold removeEventListenerOnTargetWhenIsUseless.
  destruct (isEventNeedToBeHandled t name); cbn [negb andb]; [|reflexivity].
  rewrite indexOf_tests_agree.
  destruct (indexOf name (get t (bindedEventNames s)) >? -1)%Z eqn:Eb;
    cbn [negb andb]; [|reflexivity].
  destruct (busHasEvents (get t (buses s))); cbn [negb]; [reflexivity|].
  pose proof (findBinded_indexOf name (get t (bindedEventInfo s)) 0) as Hf.
  destruct (findBinded name (get t (bindedEventInfo s)) 0) as [[fn|] index];
    [|reflexivity].
  destruct Hf as [Hidx _]. rewrite <- Hmap in Hidx.
  change (indexOfFrom (Z.of_nat 0) name (get t (bindedEventNames s)))
    with (indexOf name (get t (bindedEventNames s))) in Hidx.
  rewrite Hidx, Nat2Z.id.
  destruct (BinderTarget_eqb_spec t Kernel) as [->|Hne].
  - unfold bind. rewrite kernelOff_logs by exact Hsrc. reflexivity.
  - unfold bind, modify. rewrite detachFromDom_logs by exact Hne. reflexivity.
Qed.

Lemma release_without_kernel (name : string) (s : State) :
  sourcePresent Kernel s = false ->
  snd (removeEventListenerOnTargetWhenIsUseless name Kernel s) = s.
Proof.
  unfold sourcePresent. intros Hsrc.
  unfold removeEventListenerOnTargetWhenIsUseless.
  destruct (negb (isEventNeedToBeHandled Kernel name)); [reflexivity|].
  destruct (indexOf name _ <? 0)%Z; [reflexivity|].
  destruct (busHasEvents _); [reflexivity|].
  destruct (findBinded name _ 0) as [[fn|] index]; [|reflexivity].
  cbn [BinderTarget_eqb]. unfold bind, kernelOff.
  destruct (kernel (dispatcher s)); [discriminate | reflexivity].
Qed.

Lemma release_registryOk (name : string) (t u : BinderTarget) (s : State) :
  registryOk t s -> registryOk u s ->
  registryOk u (snd (removeEventListenerOnTargetWhenIsUseless name t s)).
Proof.
  intros Ht Hu.
  destruct (sourcePresent t s) eqn:Hsrc.
  - rewrite release_cases by assumption. cbn [snd].
    destruct (_ && _ && _); [|exact Hu].
    destruct (findBinded name (get t (bindedEventInfo s)) 0) as [[fn|] index];
      [|exact Hu].
    unfold registryOk in *. cbn.
    destruct (BinderTarget_eqb_spec t u) as [->|Hne].
    + rewrite !get_set_same. destruct Hu as [Hmap Hnd]. split.
      * now rewrite map_fst_removeAt, Hmap.
      * now apply NoDup_removeAt.
    + now rewrite !get_set_other by exact Hne.
  - assert (t = Kernel) as ->.
    { unfold sourcePresent in Hsrc. destruct t; try discriminate. reflexivity. }
    now rewrite release_without_kernel.
Qed.

Lemma getTargetDom_dispatcher (t : BinderTarget) (s s' : State) :
  dispatcher s = dispatcher s' -> getTargetDom t s = getTargetDom t s'.
Proof. unfold getTargetDom. now intros ->. Qed.

Lemma detachEffects_dispatcher (t : BinderTarget) (name : string)
    (fn : NativeFn) (s s' : State) :
  dispatcher s = dispatcher s' ->
  detachEffects t name fn s = detachEffects t name fn s'.
Proof.
  intros E. unfold detachEffects.
  rewrite (getTargetDom_dispatcher t s s' E). now rewrite E.
Qed.

Lemma detach_loop (t : BinderTarget) (s0 : State)
    (l : list (string * NativeFn)) :
  t <> Kernel ->
  forall s,
    dispatcher s = dispatcher s0 ->
    forEachM l
      (fun '(name, fn) => modify (detachFromDom t (getTargetDom t s0) name fn)) s
    = (Ok tt,
       logAll (flat_map (fun '(name, fn) => detachEffects t name fn s0) l) s).
Proof.
  intros Hne. induction l as [|[name fn] l IH]; intros s Hd.
  - cbn. now rewrite logAll_nil.
  - cbn [forEachM flat_map]. unfold bind, modify at 1.
    rewrite <- (getTargetDom_dispatcher t s s0 Hd).
    rewrite detachFromDom_logs by exact Hne.
    rewrite (getTargetDom_dispatcher t s s0 Hd).
    rewrite IH by exact Hd.
    rewrite logAll_logAll, (detachEffects_dispatcher t name fn s s0 Hd).
    reflexivity.
Qed.

Lemma kernelOff_loop (s0 : State) (l : list (string * NativeFn)) :
  sourcePresent Kernel s0 = true \/ l = [] ->
  forall s,
    dispatcher s = dispatcher s0 ->
    forEachM l (fun '(name, fn) => kernelOff name fn) s
    = (Ok tt,
       logAll (flat_map (fun '(name, fn) => detachEffects Kernel name fn s0) l) s).
Proof.
  intros Hsrc. induction l as [|[name fn] l IH]; intros s Hd.
  - cbn. now rewrite logAll_nil.
  - destruct Hsrc as [Hsrc|Hnil]; [|discriminate].
    cbn [forEachM flat_map]. unfold bind.
    rewrite kernelOff_logs
      by (unfold sourcePresent in *; now rewrite Hd).
    rewrite IH by (auto || exact Hd).
    rewrite logAll_logAll, (detachEffects_dispatcher Kernel name fn s s0 Hd).
    reflexivity.
Qed.

Lemma detachTargets_snoc (targets : list BinderTarget) (t : BinderTarget)
    (s : State) :
  detachTargets (targets ++ [t]) s
  = detachTargets targets s
    ++ flat_map (fun '(name, fn) => detachEffects t name fn s)
         (get t (bindedEventInfo s)).
Proof.
  unfold detachTargets. rewrite flat_map_app. cbn [flat_map].
  now rewrite app_nil_r.
Qed.

(** One turn of the loop of [destroy] for the kernel, which comes first. *)
Lemma destroyTarget_kernel (s : State) :
  sourcePresent Kernel s = true \/ get Kernel (bindedEventInfo s) = [] ->
  destroyTarget Kernel s = (Ok tt, destroyedUpTo [Kernel] s).
Proof.
  intros Hsrc. unfold destroyTarget. cbn [BinderTarget_eqb].
  unfold bind at 1 2. unfold gets at 1.
  rewrite (kernelOff_loop s _ Hsrc s eq_refl).
  unfold bind, modify, destroyedUpTo, detachTargets. cbn.
  now rewrite app_nil_r.
Qed.

(** One turn for any other target, after the kernel's. *)
Lemma destroyTarget_other (targets : list BinderTarget) (t : BinderTarget)
    (s : State) :
  t <> Kernel ->
  destroyTarget t (destroyedUpTo targets s)
  = (Ok tt, destroyedUpTo (targets ++ [t]) s).
Proof.
  intros Hne. unfold destroyTarget.
  destruct (BinderTarget_eqb_spec t Kernel) as [E|_]; [contradiction|].
  unfold bind at 1 2 3. unfold gets.
  rewrite (detach_loop t (destroyedUpTo targets s) _ Hne _ eq_refl).
  unfold bind, modify, destroyedUpTo.
  cbn [bindedEventInfo].
  rewrite get_set_other by congruence.
  unfold setNames, setInfo, logAll.
  cbn [bindedEventInfo bindedEventNames buses dispatcher pendingEventsInfo
       allocated trace].
  rewrite !set_set, detachTargets_snoc, <- app_assoc.
  reflexivity.
Qed.

Lemma destroy_returns (s : State) :
  sourcePresent Kernel s = true \/ get Kernel (bindedEventInfo s) = [] ->
  destroy s = (Ok tt, destroyedUpTo kinds s).
Proof.
  intros Hsrc. unfold destroy, kinds. cbn [forEachM]. unfold bind.
  rewrite destroyTarget_kernel by exact Hsrc.
  repeat (rewrite destroyTarget_other by discriminate; cbn [app]).
  reflexivity.
Qed.

Lemma destroy_throws (s : State) :
  sourcePresent Kernel s = false ->
  get Kernel (bindedEventInfo s) <> [] ->
  destroy s = (Throw "TypeError", s).
Proof.
  unfold sourcePresent. intros Hsrc Hne.
  unfold destroy, kinds. cbn [forEachM]. unfold bind at 1.
  unfold destroyTarget. cbn [BinderTarget_eqb]. unfold bind at 1 2 3.
  unfold gets. destruct (get Kernel (bindedEventInfo s)) as [|[name fn] l];
    [contradiction|].
  cbn [forEachM]. unfold bind at 1. unfold kernelOff.
  destruct (kernel (dispatcher s)); [discriminate | reflexivity].
Qed.

Lemma fanOut_registry (how : FanOut) (backup : Ret) (info : emitInfo)
    (s : State) :
  registry (snd (runnable isEventEmitalbe backup (fanOutBody how) info s))
  = registry s.
Proof.
  unfold runnable. destruct (isEventEmitalbe info); [|reflexivity].
  unfold fanOutBody. destruct (em_name info); reflexivity.
Qed.

Lemma mouseMoveFn_registry (name : string) (e : MouseEvent) (s : State) :
  registry (snd (mouseMoveFn name e s)) = registry s.
Proof.
  unfold mouseMoveFn.
  destruct (_ && _ && _); [unfold triggerSync; now rewrite fanOut_registry|].
  destruct (_ && _ && _); [unfold triggerSync; now rewrite fanOut_registry|].
  reflexivity.
Qed.

Lemma fold_registryOk {A} (u : BinderTarget) (f : A -> State -> State)
    (l : list A) :
  (forall x st, registryOk u st -> registryOk u (f x st)) ->
  forall s, registryOk u s -> registryOk u (fold_left (fun acc x => f x acc) l s).
Proof.
  intros Hf. induction l as [|x l IH]; intros s Hs; simpl; auto.
Qed.

Lemma applyPendingEvents_registryOk (t u : BinderTarget) (s : State) :
  registryOk u s -> registryOk u (applyPendingEvents t s).
Proof.
  intros Hs. unfold applyPendingEvents.
  rewrite applyPendingLoop_exhausts by lia.
  apply (fold_registryOk u
           (fun x st => let '(name, id) := x in
                        addEventListenerOnTarget name t id st)).
  - intros [name id] st. apply addEventListenerOnTarget_registryOk.
  - exact Hs.
Qed.

(** One turn of the loop of [listenOnMouseMoveEvent]: the function is made
    and attached to the node whatever the registry says; only the two
    pushes depend on the name being unbound. *)
Lemma listen_turn (node : Node) (name : string) (s : State) :
  (let '(fn, s) := newFn (MouseMove name) s in
   let s := addEvent node name fn s in
   if (indexOf name (get VideoDom (bindedEventNames s)) <? 0)%Z
   then pushBinding VideoDom name fn s
   else s)
  = let fn := mkFn (allocated s) (MouseMove name) in
    let s1 := logAll [AddEvent node name fn] (snd (newFn (MouseMove name) s)) in
    if (indexOf name (get VideoDom (bindedEventNames s)) >? -1)%Z
    then s1
    else pushBinding VideoDom name fn s1.
Proof.
  unfold newFn, addEvent. cbn [fst snd]. rewrite log_logAll.
  cbn [logAll bindedEventNames]. rewrite indexOf_tests_agree.
  now destruct (indexOf name (get VideoDom (bindedEventNames s)) >? -1)%Z.
Qed.

Lemma listenOnMouseMoveEvent_registryOk (node : Node) (u : BinderTarget)
    (s : State) :
  registryOk u s -> registryOk u (listenOnMouseMoveEvent node s).
Proof.
  unfold listenOnMouseMoveEvent, forEach.
  apply (fold_registryOk u
           (fun name s =>
              let '(fn, s) := newFn (MouseMove name) s in
              let s := addEvent node name fn s in
              if (indexOf name (get VideoDom (bindedEventNames s)) <? 0)%Z
              then pushBinding VideoDom name fn s
              else s)).
  intros name st Hst. rewrite listen_turn. cbn zeta.
  destruct (indexOf name (get VideoDom (bindedEventNames st)) >? -1)%Z eqn:Eb.
  - exact Hst.
  - apply pushBinding_registryOk; [|exact Hst].
    unfold newFn. cbn [logAll snd bindedEventNames].
    intros Hin. apply indexOf_bound_iff in Hin. congruence.
Qed.

Lemma destroy_registryOk (u : BinderTarget) (s : State) :
  registryOk u s -> registryOk u (snd (destroy s)).
Proof.
  intros Hs.
  destruct (sourcePresent Kernel s) eqn:Hsrc;
    [rewrite destroy_returns by now left|].
  2: destruct (get Kernel (bindedEventInfo s)) eqn:El;
       [rewrite destroy_returns by now right
       |rewrite destroy_throws by (assumption || congruence); exact Hs].
  all: unfold registryOk, destroyedUpTo in *; cbn [snd bindedEventInfo bindedEventNames];
    destruct (BinderTarget_eqb_spec Kernel u) as [<-|Hne];
    [rewrite !get_set_same; split; [reflexivity | constructor]
    |now rewrite !get_set_other by exact Hne].
Qed.

(** Whatever happens to a binder, the registry of every target stays well
    formed. *)
Lemma runOp_registryOk (o : Op) (s : State) :
  (forall t, registryOk t s) -> forall u, registryOk u (runOp o s).
Proof.
  intros Hs u. destruct o as
    [info|info|info|how info|target name id|target|node remove|node remove
    |node|oldKernel newKernel| |fn e|k|l]; cbn [runOp].
  - unfold exec. destruct (prettifyEventParameter info) as [p|msg] eqn:Hp.
    + rewrite (on_returns info p s Hp). cbn [snd].
      apply (registryOk_registry u
               (addEventListenerOnTarget (w_name p) (w_target p) (w_id p) s));
        [reflexivity|].
      now apply addEventListenerOnTarget_registryOk.
    + unfold on, bind, liftRes. rewrite Hp. apply Hs.
  - unfold exec, once, bind, liftRes.
    destruct (prettifyEventParameter info); apply Hs.
  - unfold exec, off, bind at 1, liftRes.
    destruct (prettifyEventParameter info) as [p|msg]; [|apply Hs].
    unfold bind at 1. unfold modify at 1. unfold bind at 1.
    set (s1 := setBus _ _ s).
    assert (H1' : forall t, registryOk t s1) by (intros t; apply Hs).
    pose proof (release_registryOk (w_name p) (w_target p) u s1
                  (H1' _) (H1' _)) as Hr.
    destruct (removeEventListenerOnTargetWhenIsUseless _ _ s1) as [[[]|msg] s2];
      exact Hr.
  - unfold exec.
    destruct how; unfold emit, emitSync, trigger, triggerSync;
      (eapply registryOk_registry; [apply fanOut_registry | apply Hs]).
  - apply Hs.
  - now apply applyPendingEvents_registryOk.
  - eapply registryOk_registry; [|apply Hs].
    apply forEach_registry. intros [name fn] st. now destruct remove.
  - eapply registryOk_registry; [|apply Hs].
    apply forEach_registry. intros [name fn] st. now destruct remove.
  - now apply listenOnMouseMoveEvent_registryOk.
  - eapply registryOk_registry; [|apply Hs].
    apply forEach_registry. now intros [name fn] st.
  - now apply destroy_registryOk.
  - unfold exec, callFn. eapply registryOk_registry; [|apply Hs].
    destruct (fn_body fn); unfold triggerSync, trigger;
      first [apply fanOut_registry | apply mouseMoveFn_registry].
  - apply Hs.
  - apply Hs.
Qed.

Lemma runOps_registryOk (ops : list Op) :
  forall s, (forall t, registryOk t s) ->
            forall u, registryOk u (runOps ops s).
Proof.
  induction ops as [|o ops IH]; intros s Hs u; [apply Hs|].
  cbn [runOps fold_left]. apply (IH (runOp o s)).
  intros t. now apply runOp_registryOk.
Qed.

Lemma newBinder_registryOk (d : Dispatcher) (t : BinderTarget) :
  registryOk t (newBinder d).
Proof.
  unfold registryOk, newBinder. cbn. rewrite !get_init.
  split; [reflexivity | constructor].
Qed.


(** The release after [off] on the kernel target while the kernel is
    missing: where a function would be detached, reading [off] of the
    missing kernel throws before anything is detached or removed. *)
Lemma release_without_source (name : string) (s : State) :
  registryOk Kernel s ->
  sourcePresent Kernel s = false ->
  removeEventListenerOnTargetWhenIsUseless name Kernel s
  = (if isEventNeedToBeHandled Kernel name
        && (indexOf name (get Kernel (bindedEventNames s)) >? -1)%Z
        && negb (busHasEvents (get Kernel (buses s)))
     then Throw "TypeError"
     else Ok tt,
     s).
Proof.
  intros [Hmap _] Hsrc. unfold removeEventListenerOnTargetWhenIsUseless.
  destruct (isEventNeedToBeHandled Kernel name); cbn [negb andb];
    [|reflexivity].
  rewrite indexOf_tests_agree.
  destruct (indexOf name (get Kernel (bindedEventNames s)) >? -1)%Z eqn:Eb;
    cbn [negb andb]; [|reflexivity].
  destruct (busHasEvents (get Kernel (buses s))); cbn [negb]; [reflexivity|].
  pose proof (findBinded_indexOf name (get Kernel (bindedEventInfo s)) 0) as Hf.
  rewrite <- Hmap in Hf.
  change (indexOfFrom (Z.of_nat 0) name (get Kernel (bindedEventNames s)))
    with (indexOf name (get Kernel (bindedEventNames s))) in Hf.
  destruct (findBinded name (get Kernel (bindedEventInfo s)) 0)
    as [[fn|] index].
  - cbn [BinderTarget_eqb]. unfold bind, kernelOff.
    unfold sourcePresent in Hsrc.
    destruct (kernel (dispatcher s)); [discriminate | reflexivity].
  - apply Z.gtb_lt in Eb. lia.
Qed.

(** An [off] on the kernel target while the kernel is missing. *)
Lemma off_without_source (s : State) (info : rawEventInfo)
    (p : wholeEventInfo) :
  registryOk Kernel s ->
  prettifyEventParameter info = Ok p ->
  w_target p = Kernel ->
  sourcePresent Kernel s = false ->
  let bus' :=
    busOff (w_id p) (w_name p) (w_fn p) (w_stage p) (get Kernel (buses s)) in
  off info s
  = (if isEventNeedToBeHandled Kernel (w_name p)
        && (indexOf (w_name p) (get Kernel (bindedEventNames s)) >? -1)%Z
        && negb (busHasEvents bus')
     then Throw "TypeError"
     else Ok RetBus,
     setBus Kernel bus' s).
Proof.
  intros Hok Hp Ht Hsrc bus'.
  unfold off, bind at 1, liftRes. rewrite Hp. unfold bind at 1.
  unfold modify at 1. unfold bind at 1. rewrite Ht. fold bus'.
  set (s1 := setBus Kernel bus' s).
  rewrite (release_without_source (w_name p) s1 Hok Hsrc).
  replace (get Kernel (buses s1)) with bus'
    by (subst s1; cbn [setBus buses]; now rewrite get_set_same).
  change (bindedEventNames s1) with (bindedEventNames s).
  now destruct (_ && _ && _).
Qed.

(** C2, as the code has it. An [off] first removes the subscriber from the
    bus of the target.  It then detaches the native listener exactly when
    the target is bound here, the name is recorded as bound, that bus
    reports no event at all, whatever the name, and the source of the
    target exists: the recorded function is detached once from the source,
    and for the video surface from each overlay node as well, and its entry
    leaves both tables.  In every other case, in particular while the bus
    still holds any subscriber, nothing is detached and the registry is
    unchanged; the call returns, except on the kernel target without a
    kernel, where the detachment that is due fails with a TypeError. *)
Theorem off_releases_only_when_the_bus_is_empty
    (s : State) (info : rawEventInfo) (p : wholeEventInfo) :
  registryOk (w_target p) s ->
  prettifyEventParameter info = Ok p ->
  let t := w_target p in
  let name := w_name p in
  let bus' := busOff (w_id p) name (w_fn p) (w_stage p) (get t (buses s)) in
  let useless :=
    isEventNeedToBeHandled t name
    && (indexOf name (get t (bindedEventNames s)) >? -1)%Z
    && negb (busHasEvents bus') in
  exists r s',
    off info s = (r, s')
    /\ get t (buses s') = bus'
    /\ r = (if useless && negb (sourcePresent t s)
            then Throw "TypeError" else Ok RetBus)
    /\ if useless && sourcePresent t s
       then
         exists fn index,
           In (name, fn) (get t (bindedEventInfo s))
           /\ trace s' = trace s ++ detachEffects t name fn s
           /\ get t (bindedEventNames s')
              = removeAt index (get t (bindedEventNames s))
           /\ get t (bindedEventInfo s')
              = removeAt index (get t (bindedEventInfo s))
           /\ ~ In name (get t (bindedEventNames s'))
       else trace s' = trace s /\ registry s' = registry s.
Proof.
  intros Hok Hp t name bus' useless.
  set (s1 := setBus t bus' s).
  assert (Hoff : off info s
                 = (let '(r, s2) :=
                      removeEventListenerOnTargetWhenIsUseless name t s1 in
                    match r with
                    | Ok _ => (Ok RetBus, s2)
                    | Throw msg => (Throw msg, s2)
                    end)).
  { unfold off, bind at 1, liftRes. rewrite Hp. unfold bind at 1.
    unfold modify at 1. unfold bind. fold t name bus' s1.
    now destruct (removeEventListenerOnTargetWhenIsUseless name t s1)
      as [[[]|msg] s2]. }
  assert (Hbus : get t (buses s1) = bus') by (cbn; apply get_set_same).
  assert (Hok1 : registryOk t s1) by exact Hok.
  rewrite Hoff.
  destruct (sourcePresent t s) eqn:Hsrc.
  - rewrite (release_cases name t s1) by exact Hok1 || exact Hsrc.
    rewrite Hbus.
    change (bindedEventNames s1) with (bindedEventNames s).
    change (bindedEventInfo s1) with (bindedEventInfo s).
    fold useless. rewrite andb_false_r, andb_true_r.
    eexists. eexists. split; [reflexivity|].
    destruct useless eqn:Hc.
    + subst useless. apply andb_prop in Hc as [Hc _].
      apply andb_prop in Hc as [_ Hb].
      pose proof (findBinded_indexOf name (get t (bindedEventInfo s)) 0) as Hf.
      destruct Hok as [Hmap Hnd]. fold t in Hmap, Hnd.
      rewrite <- Hmap in Hf.
      change (indexOfFrom (Z.of_nat 0) name (get t (bindedEventNames s)))
        with (indexOf name (get t (bindedEventNames s))) in Hf.
      destruct (findBinded name (get t (bindedEventInfo s)) 0)
        as [[fn|] index].
      * destruct Hf as [Hidx Hin].
        cbn [setNames setInfo logAll buses bindedEventNames bindedEventInfo
             trace].
        rewrite !get_set_same.
        split; [exact Hbus|]. split; [reflexivity|]. exists fn, index.
        split; [exact Hin|]. split; [reflexivity|].
        split; [reflexivity|]. split; [reflexivity|].
        replace index
          with (Z.to_nat (indexOfFrom 0 name (get t (bindedEventNames s)) - 0)).
        -- apply removeAt_indexOf_absent; [exact Hnd | lia |].
           now apply indexOf_bound_iff.
        -- unfold indexOf in Hidx. rewrite Hidx. lia.
      * apply Z.gtb_lt in Hb. lia.
    + split; [exact Hbus|]. split; [reflexivity|]. split; reflexivity.
  - assert (Ht : w_target p = Kernel).
    { unfold sourcePresent in Hsrc. subst t.
      destruct (w_target p); try discriminate. reflexivity. }
    subst useless bus' name t. rewrite Ht in *.
    rewrite <- Hoff.
    rewrite (off_without_source s info p Hok Hp Ht Hsrc). cbn zeta.
    rewrite andb_true_r, andb_false_r.
    eexists. eexists. split; [reflexivity|].
    split; [cbn [setBus buses]; apply get_set_same|].
    split; [reflexivity|]. split; reflexivity.
Qed.

(** C4, what the code does. When the kernel exists, or nothing is recorded
    for it, [destroy] returns after detaching every recorded pair of every
    target from its source: through the kernel for the kernel target,
    through the node for the others, and through every overlay node as well
    for the video surface.  It empties the two tables of the kernel target
    only; the tables of every other target are what they were. *)
Theorem destroy_empties_only_the_kernel_registry (s : State) :
  sourcePresent Kernel s = true \/ get Kernel (bindedEventInfo s) = [] ->
  exists s',
    destroy s = (Ok tt, s')
    /\ trace s' = trace s ++ detachTargets kinds s
    /\ (forall t,
          get t (bindedEventNames s')
          = if BinderTarget_eqb t Kernel then []
            else get t (bindedEventNames s))
    /\ (forall t,
          get t (bindedEventInfo s')
          = if BinderTarget_eqb t Kernel then []
            else get t (bindedEventInfo s)).
Proof.
  intros Hsrc. exists (destroyedUpTo kinds s).
  split; [now apply destroy_returns|].
  split; [reflexivity|].
  split; intros t; unfold destroyedUpTo;
    cbn [bindedEventNames bindedEventInfo];
    (destruct (BinderTarget_eqb_spec t Kernel) as [->|Hne];
     [apply get_set_same | apply get_set_other; congruence]).
Qed.

Lemma listen_loop (node : Node) (l : list string) :
  forall s,
    (forall name, In name l -> In name (get VideoDom (bindedEventNames s))) ->
    let s' :=
      fold_left
        (fun acc name =>
           (fun name s =>
              let '(fn, s) := newFn (MouseMove name) s in
              let s := addEvent node name fn s in
              if (indexOf name (get VideoDom (bindedEventNames s)) <? 0)%Z
              then pushBinding VideoDom name fn s
              else s) name acc)
        l s in
    trace s'
    = trace s
      ++ map (fun '(i, name) => AddEvent node name (mkFn i (MouseMove name)))
           (numbered (allocated s) l)
    /\ registry s' = registry s.
Proof.
  induction l as [|name l IH]; intros s Hbound.
  - cbn. now rewrite app_nil_r.
  - cbn [fold_left numbered map]. cbv beta. rewrite listen_turn. cbn zeta.
    assert (Hb : (indexOf name (get VideoDom (bindedEventNames s)) >? -1)%Z
                 = true).
    { apply indexOf_bound_iff, Hbound. now left. }
    rewrite Hb.
    set (s1 := logAll _ _).
    destruct (IH s1) as [Htr Hr].
    + intros n Hn. apply Hbound. now right.
    + cbn zeta in Htr, Hr. rewrite Htr, Hr. subst s1.
      unfold newFn. cbn [logAll snd trace allocated].
      rewrite <- app_assoc. split; reflexivity.
Qed.

(** C5, what the code does. When every must-listen name is already
    recorded as bound for the video surface, [listenOnMouseMoveEvent] still
    makes one new function per name and attaches it to the node: the check
    on the bound names comes after the attachment and guards the two pushes
    only, so the registry is unchanged and the new functions are recorded
    nowhere. *)
Theorem listenOnMouseMoveEvent_attaches_before_the_check
    (node : Node) (s : State) :
  (forall name, In name mustListenVideoDomEvents ->
                In name (get VideoDom (bindedEventNames s))) ->
  let s' := listenOnMouseMoveEvent node s in
  trace s'
  = trace s
    ++ map (fun '(i, name) => AddEvent node name (mkFn i (MouseMove name)))
         (numbered (allocated s) mustListenVideoDomEvents)
  /\ bindedEventNames s' = bindedEventNames s
  /\ bindedEventInfo s' = bindedEventInfo s.
Proof.
  intros Hbound s'.
  destruct (listen_loop node mustListenVideoDomEvents s Hbound) as [Htr Hr].
  cbn zeta in Htr, Hr. unfold registry in Hr. injection Hr as Hi Hn.
  subst s'. unfold listenOnMouseMoveEvent, forEach. auto.
Qed.

End RegistryFacts.

(** ** The properties at work *)

Lemma getEventInfo_examples_witness :
  camelCase "Play" = "play"
  /\ getEventInfo "beforePlay" None None = mkInfo "play" StBefore Kernel.
Proof.
  split; [reflexivity|].
  exact (proj1 (proj2 (getEventInfo_examples eq_refl))).
Defined.

Lemma invalid_emission_is_rejected_witness :
  emitSync (mkEmit (JsString "p1") (JsString "beforePlay") None None) pluginState
  = (Ok RetFalse, pluginState)
  /\ emit (mkEmit JsUndefined (JsString "play") None None) pluginState
     = (Ok RetUndefined, pluginState).
Proof.
  split.
  - apply (invalid_emission_is_rejected
             (mkEmit (JsString "p1") (JsString "beforePlay") None None)
             pluginState).
    right; right; left. exists "beforePlay". split; [reflexivity | discriminate].
  - apply (invalid_emission_is_rejected
             (mkEmit JsUndefined (JsString "play") None None) pluginState).
    right; right; right; left. reflexivity.
Defined.

Lemma fan_out_keeps_the_raw_name_witness :
  emit (mkEmit (JsString "p1") (JsString "c_play") None None) pluginState
  = (Ok RetBus, log (BusFanOut Container Emit "c_play") pluginState).
Proof.
  apply (fan_out_keeps_the_raw_name "p1" "c_play" None None pluginState).
  reflexivity.
Defined.

Lemma containment_state_machine_witness :
  mouseMoveFn "mouseenter" pointerEnters pluginState
  = (Ok RetBus,
     log (BusFanOut VideoDom TriggerSync "mouseenter")
       (setMouseInVideo true pluginState)).
Proof.
  apply (containment_state_machine pluginState
           pointerEnters pointerLeaves pointerStays);
    reflexivity.
Defined.




(** Against C2 as stated. The last subscriber of click leaves the container
    while a subscriber of dblclick stays: no subscriber of click remains,
    and yet nothing is detached and click is still recorded as bound. *)
Lemma last_subscriber_of_a_name_leaves_the_listener :
  subscribersOf "click" (get Container (buses containerState))
  = [mkSub "a" "click" (JsFunction 100) StMain false]
  /\ off clickLeaves containerState = (Ok RetBus, clickLeftState)
  /\ subscribersOf "click" (get Container (buses clickLeftState)) = []
  /\ filter isDetach (trace clickLeftState) = []
  /\ get Container (bindedEventNames clickLeftState) = ["click"; "dblclick"].
Proof.
  split; [vm_compute; reflexivity|]. split; [vm_compute; reflexivity|].
  split; [vm_compute; reflexivity|]. split; vm_compute; reflexivity.
Qed.

(** On a bus of the kind above, a subscriber of any name makes [hasEvents]
    true. *)
Lemma ListBus_reports_any_subscriber (name : string) (b : list Subscription) :
  subscribersOf name b <> [] -> busHasEvents b = true.
Proof. destruct b; [intros Hn; now contradiction Hn | reflexivity]. Qed.

Lemma clickLeftState_registryOk (t : BinderTarget) :
  registryOk t clickLeftState.
Proof.
  unfold clickLeftState. apply runOps_registryOk.
  apply newBinder_registryOk.
Qed.

Lemma off_releases_only_when_the_bus_is_empty_witness :
  exists s',
    off dblclickLeaves clickLeftState = (Ok RetBus, s')
    /\ get Container (buses s') = []
    /\ exists fn index,
         In ("dblclick", fn) (get Container (bindedEventInfo clickLeftState))
         /\ trace s' = trace clickLeftState ++ [RemoveEvent 3 "dblclick" fn]
         /\ get Container (bindedEventNames s')
            = removeAt index ["click"; "dblclick"]
         /\ get Container (bindedEventInfo s')
            = removeAt index (get Container (bindedEventInfo clickLeftState))
         /\ ~ In "dblclick" (get Container (bindedEventNames s')).
Proof.
  pose proof (off_releases_only_when_the_bus_is_empty
                clickLeftState dblclickLeaves
                (mkWhole (JsFunction 101) "b" "dblclick" StMain Container)
                (clickLeftState_registryOk Container) eq_refl) as W.
  vm_compute in W. destruct W as (r & s' & Hoff & Hbus & Hr & Hd). subst r.
  vm_compute. exists s'.
  split; [exact Hoff|]. split; [exact Hbus | exact Hd].
Defined.

(** Against C3 as stated. The two kernel events queued before the kernel
    existed are attached mediaInfo first, heartbeat second, the reverse of
    the order they were enqueued in and of what a replay in that order
    gives. *)
Lemma flush_replays_the_last_enqueued_first :
  get Kernel (pendingEventsInfo earlyKernelState)
  = [("heartbeat", "a"); ("mediaInfo", "b")]
  /\ trace (applyPendingEvents Kernel earlyKernelState)
     = [KernelOn 7 "mediaInfo" (mkFn 0 (ForwardSync Kernel "mediaInfo" "kernel"));
        KernelOn 7 "heartbeat" (mkFn 1 (ForwardSync Kernel "heartbeat" "kernel"))]
  /\ trace (applyPendingEventsFifo Kernel earlyKernelState)
     = [KernelOn 7 "heartbeat" (mkFn 0 (ForwardSync Kernel "heartbeat" "kernel"));
        KernelOn 7 "mediaInfo" (mkFn 1 (ForwardSync Kernel "mediaInfo" "kernel"))]
  /\ applyPendingEvents Kernel earlyKernelState
     <> applyPendingEventsFifo Kernel earlyKernelState.
Proof.
  split; [reflexivity|]. split; [reflexivity|]. split; [reflexivity|].
  intros E. apply (f_equal trace) in E. vm_compute in E. discriminate.
Qed.

Lemma applyPendingEvents_replays_newest_first_witness :
  kernel (dispatcher waitingKernelState) = None
  /\ applyPendingEvents Kernel waitingKernelState
     = setPending Kernel [("mediaInfo", "b"); ("heartbeat", "a")]
         waitingKernelState.
Proof.
  split; [reflexivity|].
  exact (proj2 (proj2 (applyPendingEvents_replays_newest_first
                         Kernel waitingKernelState)) eq_refl).
Defined.

Lemma destroy_empties_only_the_kernel_registry_witness :
  exists s',
    destroy containerState = (Ok tt, s')
    /\ trace s' = trace containerState ++ detachTargets kinds containerState
    /\ (forall t,
          get t (bindedEventNames s')
          = if BinderTarget_eqb t Kernel then []
            else get t (bindedEventNames containerState))
    /\ (forall t,
          get t (bindedEventInfo s')
          = if BinderTarget_eqb t Kernel then []
            else get t (bindedEventInfo containerState)).
Proof.
  exact (destroy_empties_only_the_kernel_registry containerState
           (or_introl eq_refl)).
Defined.

(** C4 at the failing input. After [destroy] the two listeners of the
    container have been detached and are still recorded as bound. *)
Lemma destroy_keeps_the_container_registry :
  fst (destroy containerState) = Ok tt
  /\ filter isDetach (trace (exec destroy containerState))
     = [RemoveEvent 3 "click" (mkFn 0 (ForwardSync Container "click" "container"));
        RemoveEvent 3 "dblclick"
          (mkFn 1 (ForwardSync Container "dblclick" "container"))]
  /\ get Container (bindedEventNames (exec destroy containerState))
     = ["click"; "dblclick"]
  /\ get Container (bindedEventInfo (exec destroy containerState))
     = [("click", mkFn 0 (ForwardSync Container "click" "container"));
        ("dblclick", mkFn 1 (ForwardSync Container "dblclick" "container"))].
Proof. repeat split; reflexivity. Qed.

Lemma mouseState_bound (name : string) :
  In name mustListenVideoDomEvents ->
  In name (get VideoDom (bindedEventNames mouseState)).
Proof. intros [<-|[<-|[]]]; [now left | right; now left]. Qed.

(** C5 at the failing input: the second installation on the same node
    attaches two more functions, and the registry still holds the first
    two only. *)
Lemma listenOnMouseMoveEvent_attaches_before_the_check_witness :
  trace (listenOnMouseMoveEvent 1 mouseState)
  = [AddEvent 1 "mouseenter" (mkFn 0 (MouseMove "mouseenter"));
     AddEvent 1 "mouseleave" (mkFn 1 (MouseMove "mouseleave"))]
    ++ [AddEvent 1 "mouseenter" (mkFn 2 (MouseMove "mouseenter"));
        AddEvent 1 "mouseleave" (mkFn 3 (MouseMove "mouseleave"))]
  /\ bindedEventNames (listenOnMouseMoveEvent 1 mouseState)
     = bindedEventNames mouseState
  /\ bindedEventInfo (listenOnMouseMoveEvent 1 mouseState)
     = bindedEventInfo mouseState.
Proof.
  exact (listenOnMouseMoveEvent_attaches_before_the_check 1 mouseState
           mouseState_bound).
Defined.

(** * Further properties of the code *)

(** ** More on the resolver *)

Section ResolverMore.
Context `{Imports}.

Lemma oldLogic_prefixed (rest : string) :
  getEventTargetByOldLogic (String.append "c_" rest) = Some (rest, Container)
  /\ getEventTargetByOldLogic (String.append "w_" rest) = Some (rest, Wrapper).
Proof.
  split; unfold getEventTargetByOldLogic, stripPrefix; simpl;
    destruct rest; reflexivity.
Qed.

(** X1. The legacy rule reads the two prefixes off any name: what follows
    c_ is a container event, what follows w_ is a wrapper event, and the
    rule says nothing exactly for the names that start with neither and
    are not 'error'. *)
Theorem getEventTargetByOldLogic_reads_the_prefix (rest name : string) :
  getEventTargetByOldLogic (String.append "c_" rest) = Some (rest, Container)
  /\ getEventTargetByOldLogic (String.append "w_" rest) = Some (rest, Wrapper)
  /\ (getEventTargetByOldLogic name = None
      <-> String.prefix "c_" name = false
          /\ String.prefix "w_" name = false
          /\ name <> "error").
Proof.
  split; [apply oldLogic_prefixed|]. split; [apply oldLogic_prefixed|].
  - unfold getEventTargetByOldLogic. cbn [targetKeyReg matchPrefix].
    destruct (String.prefix "c_" name); [split; [discriminate | intros [? _]; discriminate]|].
    destruct (String.prefix "w_" name); [split; [discriminate | intros (_ & ? & _); discriminate]|].
    destruct (String.eqb_spec name "error") as [->|Hne].
    + split; [discriminate | intros (_ & _ & Hn); now contradiction Hn].
    + split; auto.
Qed.

(** X2. A legacy name fixes the target of the resolution whatever the
    caller supplies and whatever the tables list: container after c_,
    wrapper after w_, kernel for 'error'; the rest of the name still goes
    through the stage rule. *)
Theorem legacy_prefix_overrides_the_supplied_target
    (rest : string) (stage : option EventStage) (target : option BinderTarget) :
  ei_target (getEventInfo (String.append "c_" rest) stage target) = Container
  /\ ei_target (getEventInfo (String.append "w_" rest) stage target) = Wrapper
  /\ ei_target (getEventInfo "error" stage target) = Kernel
  /\ ei_name (getEventInfo (String.append "c_" rest) stage target)
     = fst (getEventStage rest)
  /\ ei_name (getEventInfo (String.append "w_" rest) stage target)
     = fst (getEventStage rest).
Proof.
  destruct (oldLogic_prefixed rest) as (Hc & Hw).
  unfold getEventInfo. rewrite Hc, Hw. cbn [fst snd].
  destruct (getEventStage rest) as [n st]. cbn [fst].
  repeat split.
Qed.

(** X3. The stage rule splits any name that starts with a reserved prefix:
    the stage is the prefix and the name is the camel case of what
    follows; the stage is main exactly for the names that start with none
    of the prefixes, and those names are kept as they are. *)
Theorem getEventStage_splits_the_prefix (rest name : string) :
  getEventStage (String.append "before" rest) = (camelCase rest, StBefore)
  /\ getEventStage (String.append "after" rest) = (camelCase rest, StAfter)
  /\ getEventStage (String.append "_" rest) = (camelCase rest, StInternal)
  /\ (snd (getEventStage name) = StMain
      <-> matchPrefix secondaryEventReg name = None)
  /\ (snd (getEventStage name) = StMain -> fst (getEventStage name) = name).
Proof.
  split; [|split; [|split; [|split]]].
  - unfold getEventStage, stripPrefix. simpl. destruct rest; reflexivity.
  - unfold getEventStage, stripPrefix. simpl. destruct rest; reflexivity.
  - unfold getEventStage, stripPrefix. simpl. destruct rest; reflexivity.
  - unfold getEventStage. cbn [secondaryEventReg matchPrefix].
    destruct (String.prefix "before" name); [split; discriminate|].
    destruct (String.prefix "after" name); [split; discriminate|].
    destruct (String.prefix "_" name); [split; discriminate|].
    split; reflexivity.
  - unfold getEventStage. cbn [secondaryEventReg matchPrefix].
    destruct (String.prefix "before" name); [discriminate|].
    destruct (String.prefix "after" name); [discriminate|].
    destruct (String.prefix "_" name); [discriminate|].
    reflexivity.
Qed.

(** X4. The membership lists are consulted in a fixed order: a video event
    is a video event even when other lists name it too, then come the
    kernel, the DOM events of the video surface and the fullscreen events;
    a name is a plugin event exactly when no list has it. *)
Theorem getEventTargetByEventName_priority (name : string) :
  (getEventTargetByEventName name = Video <-> In name videoEvents)
  /\ (getEventTargetByEventName name = Kernel
      <-> ~ In name videoEvents /\ In name kernelEvents)
  /\ (getEventTargetByEventName name = VideoDom
      <-> ~ In name videoEvents /\ ~ In name kernelEvents
          /\ In name domEvents)
  /\ (getEventTargetByEventName name = EsFullscreen
      <-> ~ In name videoEvents /\ ~ In name kernelEvents
          /\ ~ In name domEvents /\ In name esFullscreenEvents)
  /\ (getEventTargetByEventName name = Plugin
      <-> ~ In name videoEvents /\ ~ In name kernelEvents
          /\ ~ In name domEvents /\ ~ In name esFullscreenEvents).
Proof.
  unfold getEventTargetByEventName.
  pose proof (indexOf_bound_iff name videoEvents) as Hv.
  pose proof (indexOf_bound_iff name kernelEvents) as Hk.
  pose proof (indexOf_bound_iff name domEvents) as Hd.
  pose proof (indexOf_bound_iff name esFullscreenEvents) as Hf.
  destruct (indexOf name videoEvents >? -1)%Z;
    [|destruct (indexOf name kernelEvents >? -1)%Z;
      [|destruct (indexOf name domEvents >? -1)%Z;
        [|destruct (indexOf name esFullscreenEvents >? -1)%Z]]];
    repeat split; intros; try discriminate; try tauto;
    intuition discriminate.
Qed.

End ResolverMore.

(** ** More on emission and subscription *)

Section EmissionMore.
Context `{Imports} `{BusClass} `{DomClass}.

Lemma isEventEmitalbe_accepts (id name : string) (stage : option EventStage)
    (target : option BinderTarget) :
  id <> "" -> name <> "" -> matchPrefix secondaryEventReg name = None ->
  isEventEmitalbe (mkEmit (JsString id) (JsString name) stage target) = true.
Proof.
  intros Hi Hn Hm. unfold isEventEmitalbe. cbn [em_name em_id]. rewrite Hm.
  cbn [falsy isString negb orb].
  destruct (String.eqb_spec name ""); [contradiction|].
  destruct (String.eqb_spec id ""); [contradiction|].
  reflexivity.
Qed.

(** X5. For an id and a name that are not objects, that is primitive
    values or functions, the guard of the emitting methods accepts a call
    exactly when both are non-empty strings and the name starts with none
    of the stage prefixes; in particular an empty name or an empty id is
    rejected like a missing one. *)
Theorem isEventEmitalbe_exactly (info : emitInfo) :
  em_id info <> JsObject ->
  em_name info <> JsObject ->
  (isEventEmitalbe info = true
   <-> exists id name,
         em_id info = JsString id /\ em_name info = JsString name
         /\ id <> "" /\ name <> ""
         /\ matchPrefix secondaryEventReg name = None).
Proof.
  intros _ _. split; [apply isEventEmitalbe_true|].
  intros (id & name & Hid & Hname & Hi & Hn & Hm).
  destruct info as [i n st tg]. cbn [em_id em_name] in Hid, Hname. subst i n.
  now apply isEventEmitalbe_accepts.
Qed.


(** X7. A native event that reaches the function written for a target and
    a name is handed to the bus of that very target under that very name,
    synchronously for every target but video, provided the name is not
    empty, has no legacy form and no stage prefix. *)
Theorem recorded_forwarder_reaches_its_bus
    (ref : nat) (t : BinderTarget) (name : string) (e : MouseEvent) (s : State) :
  getEventTargetByOldLogic name = None ->
  name <> "" ->
  matchPrefix secondaryEventReg name = None ->
  callFn (mkFn ref (forwarder t name)) e s
  = (Ok RetBus,
     log (BusFanOut t
            (if BinderTarget_eqb t Video then Trigger else TriggerSync) name)
       s).
Proof.
  intros Hold Hne Hm.
  assert (Hguard : forall id, id <> "" ->
    isEventEmitalbe (mkEmit (JsString id) (JsString name) None (Some t)) = true).
  { intros id Hid. now apply isEventEmitalbe_accepts. }
  assert (Htarget : ei_target (getEventInfo name None (Some t)) = t).
  { unfold getEventInfo. rewrite Hold. now destruct (getEventStage name). }
  unfold callFn.
  destruct t; cbn [fn_body forwarder BinderTarget_eqb targetString];
    unfold triggerSync, trigger, runnable;
    rewrite Hguard by discriminate;
    unfold fanOutBody; cbn [em_name em_stage em_target];
    rewrite Htarget; reflexivity.
Qed.

(** X8. A handler that is not a function makes on, off and once throw
    before anything happens: no bus is called, nothing is attached,
    detached or queued, and the state is the one before the call. *)
Theorem invalid_handler_throws_first (info : rawEventInfo) (s : State) :
  isFunction (raw_fn info) = false ->
  exists msg,
    on info s = (Throw msg, s)
    /\ off info s = (Throw msg, s)
    /\ once info s = (Throw msg, s).
Proof.
  intros Hf. eexists.
  unfold on, off, once, bind, liftRes, prettifyEventParameter.
  rewrite Hf. cbn [negb]. repeat split.
Qed.

Lemma once_returns (info : rawEventInfo) (p : wholeEventInfo) (s : State) :
  prettifyEventParameter info = Ok p ->
  once info s
  = (Ok RetBus,
     setBus (w_target p)
       (busOnce (w_id p) (w_name p) (w_fn p) (w_stage p)
          (get (w_target p) (buses s))) s).
Proof. intros Hp. unfold once, bind, liftRes. now rewrite Hp. Qed.

(** X9. However many handlers are subscribed with once, and whatever they
    resolve to, no native listener is attached for them, no name is
    recorded as bound and nothing is queued: a handler subscribed with
    once alone is reached by no native event. *)
Theorem once_never_attaches (infos : list rawEventInfo) (s : State) :
  let s' := runOps (map OpOnce infos) s in
  trace s' = trace s
  /\ registry s' = registry s
  /\ pendingEventsInfo s' = pendingEventsInfo s
  /\ allocated s' = allocated s.
Proof.
  revert s. induction infos as [|info infos IH]; intros s; [repeat split|].
  cbn [map runOps fold_left].
  fold (runOps (map OpOnce infos) (runOp (OpOnce info) s)).
  destruct (IH (runOp (OpOnce info) s)) as (Ht & Hr & Hp & Ha).
  cbn zeta in *. rewrite Ht, Hr, Hp, Ha. cbn [runOp]. unfold exec.
  destruct (prettifyEventParameter info) as [p|msg] eqn:Hp'.
  - rewrite (once_returns info p s Hp'). repeat split.
  - unfold once, bind, liftRes. rewrite Hp'. repeat split.
Qed.

End EmissionMore.

(** ** More on the registry *)

Section RegistryMore.
Context `{Imports} `{BusClass} `{DomClass}.

Lemma fold_invariant {A} (P : State -> Prop) (f : A -> State -> State)
    (l : list A) :
  (forall x st, P st -> P (f x st)) ->
  forall s, P s -> P (fold_left (fun acc x => f x acc) l s).
Proof.
  intros Hf. induction l as [|x l IH]; intros s Hs; simpl; auto.
Qed.

Lemma forEach_frame {A B} (proj : State -> B) (l : list A)
    (f : A -> State -> State) (s : State) :
  (forall x st, proj (f x st) = proj st) ->
  proj (forEach l f s) = proj s.
Proof.
  intros Hf. unfold forEach. revert s.
  induction l as [|x l IH]; intros s; simpl; [reflexivity|].
  now rewrite IH, Hf.
Qed.

Lemma detachFromDom_registry (t : BinderTarget) (node : Node) (name : string)
    (fn : NativeFn) (s : State) :
  registry (detachFromDom t node name fn s) = registry s.
Proof.
  unfold detachFromDom. destruct (BinderTarget_eqb t VideoDom); [|reflexivity].
  now rewrite forEach_registry.
Qed.

(** The release takes pairs away and adds none. *)
Lemma release_info_subset (name : string) (t u : BinderTarget) (s : State)
    (x : string * NativeFn) :
  In x (get u (bindedEventInfo
                 (snd (removeEventListenerOnTargetWhenIsUseless name t s)))) ->
  In x (get u (bindedEventInfo s)).
Proof.
  unfold removeEventListenerOnTargetWhenIsUseless.
  destruct (negb (isEventNeedToBeHandled t name)); [auto|].
  destruct (indexOf name _ <? 0)%Z; [auto|].
  destruct (busHasEvents _); [auto|].
  destruct (findBinded name _ 0) as [[fn|] index]; [|auto].
  assert (Hsub : In x (get u (set t (removeAt index (get t (bindedEventInfo s)))
                                (bindedEventInfo s))) ->
                 In x (get u (bindedEventInfo s))).
  { destruct (BinderTarget_eqb_spec t u) as [->|Hne].
    - rewrite get_set_same. apply In_removeAt.
    - now rewrite get_set_other by exact Hne. }
  destruct (BinderTarget_eqb t Kernel).
  - unfold bind, kernelOff, modify.
    destruct (kernel (dispatcher s)); [exact Hsub | auto].
  - unfold bind, modify. cbn [snd setNames setInfo bindedEventInfo].
    pose proof (detachFromDom_registry t (getTargetDom t s) name fn s) as Hr.
    unfold registry in Hr. injection Hr as Hi _. rewrite Hi. exact Hsub.
Qed.

Section EveryRecorded.
Variable P : BinderTarget -> string -> NativeFn -> Prop.
Hypothesis forwarder_ok :
  forall t name ref,
    isEventNeedToBeHandled t name = true -> P t name (mkFn ref (forwarder t name)).
Hypothesis mouse_ok :
  forall name ref, P VideoDom name (mkFn ref (MouseMove name)).

Lemma everyRecorded_registry (t : BinderTarget) (s s' : State) :
  registry s' = registry s -> everyRecorded P t s -> everyRecorded P t s'.
Proof.
  unfold registry, everyRecorded. intros E. injection E as E1 _. now rewrite E1.
Qed.

Lemma pushBinding_everyRecorded (t u : BinderTarget) (name : string)
    (fn : NativeFn) (s : State) :
  P t name fn ->
  everyRecorded P u s -> everyRecorded P u (pushBinding t name fn s).
Proof.
  unfold everyRecorded, pushBinding. cbn [setInfo setNames bindedEventInfo].
  intros Hfn Hu n f.
  destruct (BinderTarget_eqb_spec t u) as [->|Hne].
  - rewrite get_set_same. intros Hin. apply in_app_or in Hin as [Hin|[E|[]]].
    + now apply Hu.
    + injection E as <- <-. exact Hfn.
  - rewrite get_set_other by exact Hne. apply Hu.
Qed.

Lemma addEventListenerOnTarget_everyRecorded (name : string)
    (t u : BinderTarget) (id : string) (s : State) :
  everyRecorded P u s ->
  everyRecorded P u (addEventListenerOnTarget name t id s).
Proof.
  intros Hu. rewrite addEventListenerOnTarget_cases.
  destruct (isEventNeedToBeHandled t name) eqn:Hh; cbn [negb orb];
    [|exact Hu].
  destruct (indexOf name _ >? -1)%Z; [exact Hu|].
  destruct (sourcePresent t s); [|exact Hu].
  cbn zeta. apply pushBinding_everyRecorded; [now apply forwarder_ok | exact Hu].
Qed.

Lemma runOp_everyRecorded (o : Op) (s : State) :
  (forall t, everyRecorded P t s) -> forall u, everyRecorded P u (runOp o s).
Proof.
  intros Hs u. destruct o as
    [info|info|info|how info|target name id|target|node remove|node remove
    |node|oldKernel newKernel| |fn e|k|l]; cbn [runOp].
  - unfold exec. destruct (prettifyEventParameter info) as [p|msg] eqn:Hp.
    + rewrite (on_returns info p s Hp). cbn [snd].
      apply (everyRecorded_registry u
               (addEventListenerOnTarget (w_name p) (w_target p) (w_id p) s));
        [reflexivity|].
      now apply addEventListenerOnTarget_everyRecorded.
    + unfold on, bind, liftRes. rewrite Hp. apply Hs.
  - unfold exec, once, bind, liftRes.
    destruct (prettifyEventParameter info); apply Hs.
  - unfold exec, off, bind at 1, liftRes.
    destruct (prettifyEventParameter info) as [p|msg]; [|apply Hs].
    unfold bind at 1. unfold modify at 1. unfold bind at 1.
    set (s1 := setBus _ _ s).
    pose proof (release_info_subset (w_name p) (w_target p) u s1) as Hsub.
    destruct (removeEventListenerOnTargetWhenIsUseless _ _ s1) as [[[]|msg] s2];
      cbn [snd] in *; intros n f Hin; apply (Hs u), (Hsub _ Hin).
  - unfold exec.
    destruct how; unfold emit, emitSync, trigger, triggerSync;
      (eapply everyRecorded_registry; [apply fanOut_registry | apply Hs]).
  - apply Hs.
  - unfold applyPendingEvents. rewrite applyPendingLoop_exhausts by lia.
    apply (fold_invariant (everyRecorded P u)
             (fun x st => let '(name, id) := x in
                          addEventListenerOnTarget name target id st)).
    + intros [name id] st. apply addEventListenerOnTarget_everyRecorded.
    + apply Hs.
  - eapply everyRecorded_registry; [|apply Hs].
    apply forEach_registry. intros [name fn] st. now destruct remove.
  - eapply everyRecorded_registry; [|apply Hs].
    apply forEach_registry. intros [name fn] st. now destruct remove.
  - unfold listenOnMouseMoveEvent, forEach.
    apply (fold_invariant (everyRecorded P u)
             (fun name s =>
                let '(fn, s) := newFn (MouseMove name) s in
                let s := addEvent node name fn s in
                if (indexOf name (get VideoDom (bindedEventNames s)) <? 0)%Z
                then pushBinding VideoDom name fn s
                else s)); [|apply Hs].
    intros name st Hst. rewrite listen_turn. cbn zeta.
    destruct (indexOf name _ >? -1)%Z; [exact Hst|].
    apply pushBinding_everyRecorded; [apply mouse_ok | exact Hst].
  - eapply everyRecorded_registry; [|apply Hs].
    apply forEach_registry. now intros [name fn] st.
  - destruct (sourcePresent Kernel s) eqn:Hsrc;
      [unfold exec; rewrite destroy_returns by now left|].
    2: destruct (get Kernel (bindedEventInfo s)) eqn:El;
         [unfold exec; rewrite destroy_returns by now right
         |unfold exec; rewrite destroy_throws by (assumption || congruence);
          apply Hs].
    all: unfold everyRecorded, destroyedUpTo; cbn [snd bindedEventInfo];
      intros n f;
      destruct (BinderTarget_eqb_spec Kernel u) as [<-|Hne];
      [rewrite get_set_same; intros []
      |rewrite get_set_other by exact Hne; apply Hs].
  - unfold exec, callFn. eapply everyRecorded_registry; [|apply Hs].
    destruct (fn_body fn); unfold triggerSync, trigger;
      first [apply fanOut_registry | apply mouseMoveFn_registry].
  - apply Hs.
  - apply Hs.
Qed.

Lemma runOps_everyRecorded (d : Dispatcher) (ops : list Op) (t : BinderTarget) :
  everyRecorded P t (runOps ops (newBinder d)).
Proof.
  assert (Hall : forall l s, (forall u, everyRecorded P u s) ->
                             forall u, everyRecorded P u (runOps l s)).
  { induction l as [|o l IH]; intros s Hs u; [apply Hs|].
    cbn [runOps fold_left]. apply (IH (runOp o s)).
    intros v. now apply runOp_everyRecorded. }
  apply Hall. intros u n f. unfold newBinder. cbn [bindedEventInfo].
  rewrite get_init. intros [].
Qed.

End EveryRecorded.

(** X10. Whatever happens to a binder, the function recorded for a target
    and a name is one the binder wrote for that target and that name: the
    forwarder that re-enters trigger or triggerSync with them, or, on the
    video surface, the handler of the mouse listener for that name. *)
Theorem recorded_functions_belong_to_their_entry
    (d : Dispatcher) (ops : list Op) (t : BinderTarget) :
  recordedOk t (runOps ops (newBinder d)).
Proof.
  apply (runOps_everyRecorded
           (fun t name fn =>
              fn_body fn = forwarder t name
              \/ (t = VideoDom /\ fn_body fn = MouseMove name))).
  - intros u name ref _. now left.
  - intros name ref. right. now split.
Qed.

(** X21. Whatever happens to a binder, only names that need a native
    listener are recorded: nothing is ever recorded for the plugin target
    or for the fullscreen target, and no must-listen name is recorded for
    the video target. *)
Theorem only_handled_names_are_recorded
    (d : Dispatcher) (ops : list Op) :
  let s := runOps ops (newBinder d) in
  get Plugin (bindedEventInfo s) = []
  /\ get EsFullscreen (bindedEventInfo s) = []
  /\ get Plugin (bindedEventNames s) = []
  /\ get EsFullscreen (bindedEventNames s) = []
  /\ (forall name,
        In name (get Video (bindedEventNames s)) ->
        isMustListenVideoDomEvent name = false).
Proof.
  cbn zeta.
  assert (Hrec : forall t,
    everyRecorded (fun t name _ => isEventNeedToBeHandled t name = true) t
      (runOps ops (newBinder d))).
  { intros t. apply runOps_everyRecorded.
    - intros u name ref Hh. exact Hh.
    - intros name ref. now rewrite isEventNeedToBeHandled_cases. }
  assert (Hempty : forall t,
    (forall name, isEventNeedToBeHandled t name = false) ->
    get t (bindedEventInfo (runOps ops (newBinder d))) = []).
  { intros t Hno.
    destruct (get t (bindedEventInfo (runOps ops (newBinder d))))
      as [|[name fn] l] eqn:El; [reflexivity|].
    pose proof (Hrec t name fn) as Hh. rewrite El in Hh.
    rewrite Hno in Hh. discriminate Hh. now left. }
  assert (Hnames : forall t,
    get t (bindedEventNames (runOps ops (newBinder d)))
    = map fst (get t (bindedEventInfo (runOps ops (newBinder d))))).
  { intros t. apply runOps_registryOk. apply newBinder_registryOk. }
  assert (Hp : get Plugin (bindedEventInfo (runOps ops (newBinder d))) = []).
  { apply Hempty. intros name. now rewrite isEventNeedToBeHandled_cases. }
  assert (He : get EsFullscreen (bindedEventInfo (runOps ops (newBinder d))) = []).
  { apply Hempty. intros name. now rewrite isEventNeedToBeHandled_cases. }
  split; [exact Hp|]. split; [exact He|].
  split; [now rewrite Hnames, Hp|]. split; [now rewrite Hnames, He|].
  intros name Hin. rewrite Hnames in Hin. apply in_map_iff in Hin.
  destruct Hin as ([n fn] & <- & Hin). cbn [fst].
  pose proof (Hrec Video n fn Hin) as Hh. cbn beta in Hh.
  rewrite isEventNeedToBeHandled_cases in Hh.
  now apply negb_true_iff in Hh.
Qed.

Lemma set_get {X} (t : BinderTarget) (m : PerTarget X) : set t (get t m) m = m.
Proof. destruct t, m; reflexivity. Qed.

Lemma removeAt_last {A} (l : list A) (x : A) :
  removeAt (length l) (l ++ [x]) = l.
Proof. induction l as [|y l IH]; simpl; [reflexivity | now rewrite IH]. Qed.

Lemma findBinded_last (name : string) (fn : NativeFn)
    (l : list (string * NativeFn)) (i : nat) :
  ~ In name (map fst l) ->
  findBinded name (l ++ [(name, fn)]) i = (Some fn, i + length l).
Proof.
  revert i. induction l as [|[n f] l IH]; intros i Hn; simpl.
  - rewrite String.eqb_refl. f_equal. lia.
  - destruct (String.eqb_spec n name) as [->|Hne].
    + exfalso. apply Hn. now left.
    + rewrite IH by (intros Hin; apply Hn; now right). f_equal. lia.
Qed.

(** The state an [on] leaves when it attaches. *)
Lemma on_attaches (info : rawEventInfo) (p : wholeEventInfo) (s : State) :
  prettifyEventParameter info = Ok p ->
  isEventNeedToBeHandled (w_target p) (w_name p) = true ->
  ~ In (w_name p) (get (w_target p) (bindedEventNames s)) ->
  sourcePresent (w_target p) s = true ->
  let t := w_target p in
  let name := w_name p in
  let fn := mkFn (allocated s) (forwarder t name) in
  on info s
  = (Ok RetBus,
     mkState
       (set t (get t (bindedEventInfo s) ++ [(name, fn)]) (bindedEventInfo s))
       (set t (get t (bindedEventNames s) ++ [name]) (bindedEventNames s))
       (set t (busOn (w_id p) name (w_fn p) (w_stage p) (get t (buses s)))
          (buses s))
       (dispatcher s) (pendingEventsInfo s) (S (allocated s))
       (trace s ++ attachEffects t name fn s)).
Proof.
  intros Hp Hh Hfresh Hsrc. cbn zeta.
  rewrite (on_returns info p s Hp). cbn zeta.
  rewrite addEventListenerOnTarget_cases.
  rewrite Hh, Hsrc. cbn [negb orb].
  replace (indexOf (w_name p) (get (w_target p) (bindedEventNames s)) >? -1)%Z
    with false.
  - reflexivity.
  - symmetry. apply not_true_is_false. intros Hb.
    apply indexOf_bound_iff in Hb. contradiction.
Qed.

(** X11. Subscribing and then unsubscribing on a bus that is empty
    afterwards undoes the native binding: the function that [on] attached
    is the one [off] detaches, from the same source, and the registry is
    what it was before the two calls. *)
Theorem on_then_off_restores_the_registry
    (s : State) (info : rawEventInfo) (p : wholeEventInfo) :
  registryOk (w_target p) s ->
  prettifyEventParameter info = Ok p ->
  isEventNeedToBeHandled (w_target p) (w_name p) = true ->
  ~ In (w_name p) (get (w_target p) (bindedEventNames s)) ->
  sourcePresent (w_target p) s = true ->
  busHasEvents
    (busOff (w_id p) (w_name p) (w_fn p) (w_stage p)
       (busOn (w_id p) (w_name p) (w_fn p) (w_stage p)
          (get (w_target p) (buses s)))) = false ->
  let t := w_target p in
  let name := w_name p in
  let fn := mkFn (allocated s) (forwarder t name) in
  exists s1 s2,
    on info s = (Ok RetBus, s1)
    /\ off info s1 = (Ok RetBus, s2)
    /\ trace s2
       = trace s ++ attachEffects t name fn s ++ detachEffects t name fn s
    /\ registry s2 = registry s.
Proof.
  intros [Hmap Hnd] Hp Hh Hfresh Hsrc Hbus. cbn zeta.
  set (t := w_target p) in *. set (name := w_name p) in *.
  set (fn := mkFn (allocated s) (forwarder t name)).
  set (bus1 := busOn (w_id p) name (w_fn p) (w_stage p) (get t (buses s))) in *.
  set (s1 :=
         mkState
           (set t (get t (bindedEventInfo s) ++ [(name, fn)]) (bindedEventInfo s))
           (set t (get t (bindedEventNames s) ++ [name]) (bindedEventNames s))
           (set t bus1 (buses s))
           (dispatcher s) (pendingEventsInfo s) (S (allocated s))
           (trace s ++ attachEffects t name fn s)).
  set (s2 :=
         mkState (bindedEventInfo s) (bindedEventNames s)
           (set t (busOff (w_id p) name (w_fn p) (w_stage p) bus1) (buses s))
           (dispatcher s) (pendingEventsInfo s) (S (allocated s))
           (trace s ++ attachEffects t name fn s ++ detachEffects t name fn s)).
  exists s1, s2.
  split; [apply (on_attaches info p s Hp Hh Hfresh Hsrc)|].
  split; [|split; reflexivity].
  assert (Hok1 : registryOk t s1).
  { subst s1. unfold registryOk. cbn [bindedEventNames bindedEventInfo].
    rewrite !get_set_same. split.
    - rewrite map_app, Hmap. reflexivity.
    - apply NoDup_app; [exact Hnd | repeat constructor; simpl; tauto |].
      intros x Hx [<-|[]]. contradiction. }
  unfold off, bind at 1, liftRes. rewrite Hp. unfold bind at 1.
  unfold modify at 1. unfold bind at 1. fold t name.
  set (s1' := setBus t _ s1).
  rewrite (release_cases name t s1') by (exact Hok1 || exact Hsrc).
  assert (Hb1 : get t (buses s1')
                = busOff (w_id p) name (w_fn p) (w_stage p) bus1).
  { subst s1' s1. cbn [setBus buses]. now rewrite !get_set_same. }
  rewrite Hb1, Hbus, Hh. cbn [negb andb].
  change (bindedEventNames s1')
    with (set t (get t (bindedEventNames s) ++ [name]) (bindedEventNames s)).
  change (bindedEventInfo s1')
    with (set t (get t (bindedEventInfo s) ++ [(name, fn)])
            (bindedEventInfo s)).
  rewrite !get_set_same.
  replace (indexOf name (get t (bindedEventNames s) ++ [name]) >? -1)%Z
    with true
    by (symmetry; apply indexOf_bound_iff, in_or_app; right; now left).
  rewrite findBinded_last by (rewrite <- Hmap; exact Hfresh).
  cbn [andb plus]. unfold bind, modify, ret. apply f_equal.
  rewrite removeAt_last.
  replace (length (get t (bindedEventInfo s)))
    with (length (get t (bindedEventNames s)))
    by (rewrite Hmap; apply length_map).
  rewrite removeAt_last.
  subst s1' s1 s2. unfold setNames, setInfo, logAll, setBus.
  cbn [bindedEventInfo bindedEventNames buses dispatcher pendingEventsInfo
       allocated trace].
  rewrite !get_set_same, !set_set, !set_get, <- app_assoc.
  reflexivity.
Qed.

End RegistryMore.

(** ** More on the pending queue *)

Section PendingMore.
Context `{Imports} `{BusClass} `{DomClass}.

Lemma sourcePresent_false (t : BinderTarget) (s : State) :
  sourcePresent t s = false -> t = Kernel /\ kernel (dispatcher s) = None.
Proof.
  unfold sourcePresent. destruct t; try discriminate.
  destruct (kernel (dispatcher s)); [discriminate | auto].
Qed.

(** The attachment path writes the pending list of the kernel only. *)
Lemma addEventListenerOnTarget_pending (name : string) (t u : BinderTarget)
    (id : string) (s : State) :
  u <> Kernel ->
  get u (pendingEventsInfo (addEventListenerOnTarget name t id s))
  = get u (pendingEventsInfo s).
Proof.
  intros Hu. rewrite addEventListenerOnTarget_cases.
  destruct (_ || _); [reflexivity|].
  destruct (sourcePresent t s) eqn:Hsrc; [reflexivity|].
  apply sourcePresent_false in Hsrc as [-> _].
  unfold addPendingEvent. cbn [setPending pendingEventsInfo].
  apply get_set_other. congruence.
Qed.

Lemma fanOut_pending (how : FanOut) (backup : Ret) (info : emitInfo)
    (s : State) :
  pendingEventsInfo (snd (runnable isEventEmitalbe backup (fanOutBody how) info s))
  = pendingEventsInfo s.
Proof.
  unfold runnable. destruct (isEventEmitalbe info); [|reflexivity].
  unfold fanOutBody. destruct (em_name info); reflexivity.
Qed.

Lemma mouseMoveFn_pending (name : string) (e : MouseEvent) (s : State) :
  pendingEventsInfo (snd (mouseMoveFn name e s)) = pendingEventsInfo s.
Proof.
  unfold mouseMoveFn.
  destruct (_ && _ && _); [unfold triggerSync; now rewrite fanOut_pending|].
  destruct (_ && _ && _); [unfold triggerSync; now rewrite fanOut_pending|].
  reflexivity.
Qed.

Lemma release_pending (name : string) (t : BinderTarget) (s : State) :
  pendingEventsInfo (snd (removeEventListenerOnTargetWhenIsUseless name t s))
  = pendingEventsInfo s.
Proof.
  unfold removeEventListenerOnTargetWhenIsUseless.
  destruct (negb (isEventNeedToBeHandled t name)); [reflexivity|].
  destruct (indexOf name _ <? 0)%Z; [reflexivity|].
  destruct (busHasEvents _); [reflexivity|].
  destruct (findBinded name _ 0) as [[fn|] index]; [|reflexivity].
  destruct (BinderTarget_eqb t Kernel).
  - unfold bind, kernelOff, modify.
    destruct (kernel (dispatcher s)); reflexivity.
  - unfold bind, modify. cbn [snd setNames setInfo pendingEventsInfo].
    unfold detachFromDom. destruct (BinderTarget_eqb t VideoDom); [|reflexivity].
    now rewrite (forEach_frame pendingEventsInfo).
Qed.

Lemma destroy_pending (s : State) :
  pendingEventsInfo (snd (destroy s)) = pendingEventsInfo s.
Proof.
  destruct (sourcePresent Kernel s) eqn:Hsrc;
    [now rewrite destroy_returns by now left|].
  destruct (get Kernel (bindedEventInfo s)) eqn:El;
    [now rewrite destroy_returns by now right|].
  now rewrite destroy_throws by (assumption || congruence).
Qed.

Lemma runOp_pending (o : Op) (u : BinderTarget) (s : State) :
  queuesForKernelOnly o = true ->
  u <> Kernel ->
  get u (pendingEventsInfo s) = [] ->
  get u (pendingEventsInfo (runOp o s)) = [].
Proof.
  intros Hq Hu Hs. destruct o as
    [info|info|info|how info|target name id|target|node remove|node remove
    |node|oldKernel newKernel| |fn e|k|l]; cbn [runOp].
  - unfold exec. destruct (prettifyEventParameter info) as [p|msg] eqn:Hp.
    + rewrite (on_returns info p s Hp). cbn [snd setBus pendingEventsInfo].
      now rewrite addEventListenerOnTarget_pending.
    + unfold on, bind, liftRes. now rewrite Hp.
  - unfold exec, once, bind, liftRes.
    now destruct (prettifyEventParameter info).
  - unfold exec, off, bind at 1, liftRes.
    destruct (prettifyEventParameter info) as [p|msg]; [|exact Hs].
    unfold bind at 1. unfold modify at 1. unfold bind at 1.
    set (s1 := setBus _ _ s).
    pose proof (release_pending (w_name p) (w_target p) s1) as Hr.
    destruct (removeEventListenerOnTargetWhenIsUseless _ _ s1) as [[[]|msg] s2];
      cbn [snd] in Hr; change (get u (pendingEventsInfo s2) = []);
      now rewrite Hr.
  - unfold exec.
    destruct how; unfold emit, emitSync, trigger, triggerSync;
      now rewrite fanOut_pending.
  - cbn [queuesForKernelOnly] in Hq.
    destruct (BinderTarget_eqb_spec target Kernel) as [->|]; [|discriminate].
    unfold addPendingEvent. cbn [setPending pendingEventsInfo].
    rewrite get_set_other by congruence. exact Hs.
  - unfold applyPendingEvents. rewrite applyPendingLoop_exhausts by lia.
    apply (fold_invariant (fun st => get u (pendingEventsInfo st) = [])
             (fun x st => let '(name, id) := x in
                          addEventListenerOnTarget name target id st)).
    + intros [name id] st Hst. now rewrite addEventListenerOnTarget_pending.
    + cbn [setPending pendingEventsInfo].
      destruct (BinderTarget_eqb_spec target u) as [->|Hne];
        [apply get_set_same | now rewrite get_set_other by exact Hne].
  - unfold bindEventOnPenetrateNode.
    rewrite (forEach_frame pendingEventsInfo); [exact Hs|].
    intros [name fn] st. now destruct remove.
  - unfold bindEventOnVideo.
    rewrite (forEach_frame pendingEventsInfo); [exact Hs|].
    intros [name fn] st. now destruct remove.
  - unfold listenOnMouseMoveEvent.
    rewrite (forEach_frame pendingEventsInfo); [exact Hs|].
    intros name st. rewrite listen_turn. cbn zeta.
    now destruct (indexOf name _ >? -1)%Z.
  - unfold migrateKernelEvent.
    rewrite (forEach_frame pendingEventsInfo); [exact Hs|].
    now intros [name fn] st.
  - unfold exec. now rewrite destroy_pending.
  - unfold exec, callFn.
    destruct (fn_body fn); unfold triggerSync, trigger;
      first [now rewrite fanOut_pending | now rewrite mouseMoveFn_pending].
  - exact Hs.
  - exact Hs.
Qed.

(** X12. As long as [addPendingEvent] is called for the kernel only, which
    is what the binder itself does, the pending list of every other target
    stays empty whatever else happens: only subscriptions to kernel events
    are ever deferred. *)
Theorem pending_is_for_the_kernel_only
    (d : Dispatcher) (ops : list Op) (t : BinderTarget) :
  forallb queuesForKernelOnly ops = true ->
  t <> Kernel ->
  get t (pendingEventsInfo (runOps ops (newBinder d))) = [].
Proof.
  intros Hq Ht.
  assert (Hall : forall l s,
            forallb queuesForKernelOnly l = true ->
            get t (pendingEventsInfo s) = [] ->
            get t (pendingEventsInfo (runOps l s)) = []).
  { induction l as [|o l IH]; intros s Hl Hs; [exact Hs|].
    cbn [forallb] in Hl. apply andb_prop in Hl as [Ho Hl].
    cbn [runOps fold_left]. apply (IH (runOp o s) Hl).
    now apply runOp_pending. }
  apply Hall; [exact Hq|].
  unfold newBinder. cbn [pendingEventsInfo]. now rewrite get_init.
Qed.

Lemma boundOnKernel_refl (k : ChimeeKernel) (s : State) : boundOnKernel k s s.
Proof. unfold boundOnKernel. repeat split; auto. Qed.

Lemma boundOnKernel_trans (k : ChimeeKernel) (s1 s2 s3 : State) :
  boundOnKernel k s1 s2 -> boundOnKernel k s2 s3 -> boundOnKernel k s1 s3.
Proof.
  intros (Hd & Hp & Ht & Hi & Hn & Hb) (Hd' & Hp' & Ht' & Hi' & Hn' & Hb').
  unfold boundOnKernel.
  split; [congruence|]. split; [congruence|].
  split; [auto|]. split; [auto|]. split; [auto|].
  intros name Hin. destruct (Hb' name Hin) as [Hin2|(fn & Hx & Hy)].
  - destruct (Hb name Hin2) as [Hin1|(fn & Hx & Hy)]; [now left|].
    right. exists fn. auto.
  - right. exists fn. auto.
Qed.

(** One entry replayed while the kernel exists. *)
Lemma replay_on_kernel (k : ChimeeKernel) (name id : string) (s : State) :
  kernel (dispatcher s) = Some k ->
  boundOnKernel k s (addEventListenerOnTarget name Kernel id s)
  /\ In name
       (get Kernel (bindedEventNames (addEventListenerOnTarget name Kernel id s))).
Proof.
  intros Hk. rewrite addEventListenerOnTarget_cases.
  rewrite isEventNeedToBeHandled_cases. cbn [negb orb].
  destruct (indexOf name (get Kernel (bindedEventNames s)) >? -1)%Z eqn:Eb.
  - split; [apply boundOnKernel_refl | now apply indexOf_bound_iff].
  - unfold sourcePresent. rewrite Hk. cbn zeta.
    unfold pushBinding, newFn, boundOnKernel.
    cbn [attachEffects forwarder setInfo setNames logAll snd bindedEventInfo
         bindedEventNames trace dispatcher pendingEventsInfo].
    rewrite Hk, !get_set_same.
    split; [|apply in_or_app; right; now left].
    split; [reflexivity|]. split; [reflexivity|].
    split; [intros x Hx; apply in_or_app; now left|].
    split; [intros x Hx; apply in_or_app; now left|].
    split; [intros x Hx; apply in_or_app; now left|].
    intros n Hn. apply in_app_or in Hn as [Hn|[<-|[]]]; [now left|].
    right. eexists. split; apply in_or_app; right; now left.
Qed.

Lemma replay_all_on_kernel (k : ChimeeKernel) (l : list (string * string)) :
  forall s,
    kernel (dispatcher s) = Some k ->
    let s' :=
      fold_left
        (fun acc '(name, id) => addEventListenerOnTarget name Kernel id acc)
        l s in
    boundOnKernel k s s'
    /\ (forall name id,
          In (name, id) l -> In name (get Kernel (bindedEventNames s'))).
Proof.
  induction l as [|[name id] l IH]; intros s Hk.
  - split; [apply boundOnKernel_refl | intros ? ? []].
  - cbn [fold_left].
    destruct (replay_on_kernel k name id s Hk) as [Hb Hin].
    set (s1 := addEventListenerOnTarget name Kernel id s) in *.
    assert (Hk1 : kernel (dispatcher s1) = Some k).
    { destruct Hb as (Hd & _). now rewrite Hd. }
    destruct (IH s1 Hk1) as [Hb' Hall]. cbn zeta in *.
    split; [eapply boundOnKernel_trans; eassumption|].
    intros n i [E|Hin'].
    + injection E as <- <-. destruct Hb' as (_ & _ & _ & _ & Hn & _). auto.
    + eapply Hall; eassumption.
Qed.

Lemma flush_with_kernel (k : ChimeeKernel) (s : State) :
  kernel (dispatcher s) = Some k ->
  boundOnKernel k (setPending Kernel [] s) (applyPendingEvents Kernel s)
  /\ (forall name id,
        In (name, id) (get Kernel (pendingEventsInfo s)) ->
        In name (get Kernel (bindedEventNames (applyPendingEvents Kernel s)))).
Proof.
  intros Hk. unfold applyPendingEvents.
  rewrite applyPendingLoop_exhausts by lia.
  destruct (replay_all_on_kernel k (rev (get Kernel (pendingEventsInfo s)))
              (setPending Kernel [] s) Hk) as [Hb Hall].
  split; [exact Hb|].
  intros name id Hin. apply (Hall name id). now apply in_rev in Hin.
Qed.

(** X13. Once the kernel exists, the flush leaves the pending list of the
    kernel empty and every name that was queued bound: a name that was not
    bound before has had one function attached to the kernel and recorded,
    and the names bound before are still bound. *)
Theorem flush_binds_every_queued_name (s : State) (k : ChimeeKernel) :
  kernel (dispatcher s) = Some k ->
  let s' := applyPendingEvents Kernel s in
  get Kernel (pendingEventsInfo s') = []
  /\ (forall name id,
        In (name, id) (get Kernel (pendingEventsInfo s)) ->
        In name (get Kernel (bindedEventNames s'))
        /\ (In name (get Kernel (bindedEventNames s))
            \/ exists fn,
                 In (KernelOn k name fn) (trace s')
                 /\ In (name, fn) (get Kernel (bindedEventInfo s'))))
  /\ (forall name,
        In name (get Kernel (bindedEventNames s)) ->
        In name (get Kernel (bindedEventNames s'))).
Proof.
  intros Hk s'. subst s'.
  destruct (flush_with_kernel k s Hk) as [(Hd & Hp & Ht & Hi & Hn & Hb) Hall].
  split; [rewrite Hp; cbn [setPending pendingEventsInfo]; apply get_set_same|].
  split; [|exact Hn].
  intros name id Hin. split; [eapply Hall; eassumption|].
  apply Hb. eapply Hall; eassumption.
Qed.

(** X14. A subscription to a kernel event made while the kernel is missing
    attaches nothing and is queued under its name and id; when the kernel
    has arrived and the queue is flushed, the queue is empty and a function
    for that name is attached to the kernel and recorded. *)
Theorem early_kernel_subscription_is_bound_on_flush
    (s : State) (info : rawEventInfo) (p : wholeEventInfo) (k : ChimeeKernel) :
  prettifyEventParameter info = Ok p ->
  w_target p = Kernel ->
  kernel (dispatcher s) = None ->
  ~ In (w_name p) (get Kernel (bindedEventNames s)) ->
  let s1 := exec (on info) s in
  let s3 := applyPendingEvents Kernel (setKernel (Some k) s1) in
  trace s1 = trace s
  /\ get Kernel (pendingEventsInfo s1)
     = get Kernel (pendingEventsInfo s) ++ [(w_name p, w_id p)]
  /\ get Kernel (pendingEventsInfo s3) = []
  /\ exists fn,
       In (KernelOn k (w_name p) fn) (trace s3)
       /\ In (w_name p, fn) (get Kernel (bindedEventInfo s3)).
Proof.
  intros Hp Ht Hk Hfresh. cbn zeta. unfold exec.
  rewrite (on_returns info p s Hp). cbn [snd].
  rewrite Ht, addEventListenerOnTarget_without_kernel by exact Hk.
  replace (indexOf (w_name p) (get Kernel (bindedEventNames s)) >? -1)%Z
    with false
    by (symmetry; apply not_true_is_false; intros Hb;
        apply indexOf_bound_iff in Hb; contradiction).
  set (s1 := setBus Kernel _ (addPendingEvent Kernel (w_name p) (w_id p) s)).
  assert (Hq : get Kernel (pendingEventsInfo s1)
               = get Kernel (pendingEventsInfo s) ++ [(w_name p, w_id p)]).
  { subst s1. unfold addPendingEvent.
    cbn [setBus setPending pendingEventsInfo]. apply get_set_same. }
  split; [reflexivity|]. split; [exact Hq|].
  destruct (flush_with_kernel k (setKernel (Some k) s1) eq_refl)
    as [(Hd & Hpe & _ & _ & _ & Hb) Hall].
  split; [rewrite Hpe; cbn [setPending pendingEventsInfo]; apply get_set_same|].
  assert (Hin : In (w_name p)
                  (get Kernel
                     (bindedEventNames
                        (applyPendingEvents Kernel (setKernel (Some k) s1))))).
  { apply (Hall (w_name p) (w_id p)).
    change (pendingEventsInfo (setKernel (Some k) s1))
      with (pendingEventsInfo s1).
    rewrite Hq. apply in_or_app. right. now left. }
  destruct (Hb _ Hin) as [Hold|Hnew]; [contradiction | exact Hnew].
Qed.

End PendingMore.

(** ** More on the mouse listener, migration and teardown *)

Section TeardownMore.
Context `{Imports} `{BusClass} `{DomClass}.

(** What one mouse event does to the handler registered under its type:
    nothing, or a flip of the flag with one synthetic event. *)
Lemma mouse_turn (e : MouseEvent) (s : State) :
  exec (mouseMoveFn (type e) e) s = s
  \/ exec (mouseMoveFn (type e) e) s
     = log (BusFanOut VideoDom TriggerSync
              (if mouseInVideo (dom (dispatcher s))
               then "mouseleave" else "mouseenter"))
         (setMouseInVideo (negb (mouseInVideo (dom (dispatcher s)))) s).
Proof.
  unfold exec, mouseMoveFn.
  destruct (mouseInVideo (dom (dispatcher s))) eqn:Hflag; cbn [negb andb].
  - destruct (String.eqb_spec (type e) "mouseleave") as [Ht|Ht];
      cbn [andb]; [|now left].
    destruct (negb (isNodeInsideVideo _)); [|now left].
    right. rewrite Ht. reflexivity.
  - destruct (String.eqb_spec (type e) "mouseenter") as [Ht|Ht];
      cbn [andb]; [|now left].
    destruct (isNodeInsideVideo _); [|now left].
    right. rewrite Ht. reflexivity.
Qed.

(** X15. Whatever mouse events reach the handlers of the mouse listener,
    the synthetic events they hand to the bus of the video surface
    alternate: leave, enter, leave, ... when the pointer was recorded
    inside, enter, leave, enter, ... when it was outside; there is at most
    one per event, the flag has flipped once per synthetic event, and the
    registry is untouched. *)
Theorem synthetic_events_alternate (events : list MouseEvent) (s : State) :
  exists n,
    n <= length events
    /\ trace (dispatchMouseEvents events s)
       = trace s ++ synthetic (mouseInVideo (dom (dispatcher s))) n
    /\ mouseInVideo (dom (dispatcher (dispatchMouseEvents events s)))
       = (if Nat.even n then mouseInVideo (dom (dispatcher s))
          else negb (mouseInVideo (dom (dispatcher s))))
    /\ registry (dispatchMouseEvents events s) = registry s.
Proof.
  revert s. induction events as [|e events IH]; intros s.
  - exists 0. cbn. rewrite app_nil_r. auto.
  - unfold dispatchMouseEvents. cbn [fold_left].
    fold (dispatchMouseEvents events (exec (mouseMoveFn (type e) e) s)).
    destruct (mouse_turn e s) as [E|E]; rewrite E.
    + destruct (IH s) as (n & Hn & Ht & Hf & Hr).
      exists n. cbn [length]. split; [lia | auto].
    + set (s1 := log _ _).
      destruct (IH s1) as (n & Hn & Ht & Hf & Hr).
      exists (S n). cbn [length]. split; [lia|].
      rewrite Ht, Hf, Hr. subst s1.
      cbn [log setMouseInVideo trace dispatcher dom mouseInVideo synthetic].
      rewrite <- app_assoc. split; [reflexivity|]. split; [|reflexivity].
      rewrite Nat.even_succ, <- Nat.negb_even.
      destruct (Nat.even n), (mouseInVideo (dom (dispatcher s))); reflexivity.
Qed.

(** X16. Migrating the kernel events detaches every recorded function of
    the kernel target from the old kernel and attaches that same function
    to the new one, pair after pair in the order they were recorded; no
    function is made, and the registry, the buses, the pending lists and
    the dispatcher, its kernel included, are left as they are.  Once the
    dispatcher holds the new kernel, [destroy] takes from it the very
    functions the migration gave it. *)
Theorem migrateKernelEvent_moves_the_recorded_functions
    (oldKernel newKernel : ChimeeKernel) (s : State) :
  let moves :=
    flat_map
      (fun '(name, fn) =>
         [KernelOff oldKernel name fn; KernelOn newKernel name fn])
      (get Kernel (bindedEventInfo s)) in
  migrateKernelEvent oldKernel newKernel s = logAll moves s
  /\ fst (destroy (setKernel (Some newKernel)
                     (migrateKernelEvent oldKernel newKernel s)))
     = Ok tt
  /\ trace (exec destroy
              (setKernel (Some newKernel)
                 (migrateKernelEvent oldKernel newKernel s)))
     = trace s ++ moves
       ++ map (fun '(name, fn) => KernelOff newKernel name fn)
            (get Kernel (bindedEventInfo s))
       ++ detachTargets (tl kinds) s.
Proof.
  cbn zeta.
  assert (Hm : migrateKernelEvent oldKernel newKernel s
               = logAll
                   (flat_map
                      (fun '(name, fn) =>
                         [KernelOff oldKernel name fn;
                          KernelOn newKernel name fn])
                      (get Kernel (bindedEventInfo s)))
                   s).
  { unfold migrateKernelEvent, forEach.
    generalize (get Kernel (bindedEventInfo s)) as l. intros l.
    generalize s as st.
    induction l as [|[name fn] l IH]; intros st; cbn [fold_left flat_map].
    - now rewrite logAll_nil.
    - rewrite IH, !log_logAll, !logAll_logAll. reflexivity. }
  split; [exact Hm|]. rewrite Hm. unfold exec.
  rewrite destroy_returns by (left; reflexivity).
  split; [reflexivity|].
  assert (Hk : forall st (l : list (string * NativeFn)),
            kernel (dispatcher st) = Some newKernel ->
            flat_map (fun '(name, fn) => detachEffects Kernel name fn st) l
            = map (fun '(name, fn) => KernelOff newKernel name fn) l).
  { intros st l Hst. induction l as [|[name fn] l IH]; [reflexivity|].
    cbn [flat_map map]. rewrite IH. unfold detachEffects. now rewrite Hst. }
  unfold destroyedUpTo. cbn [snd trace setKernel logAll].
  rewrite <- app_assoc. do 2 f_equal.
  unfold detachTargets, kinds. cbn [flat_map tl].
  rewrite Hk by reflexivity. reflexivity.
Qed.

(** X17. When the kernel has gone from the dispatcher while kernel events
    are still recorded, [destroy] throws on the first of them: nothing is
    detached, not even from the other targets, and the registry is kept. *)
Theorem destroy_throws_without_kernel (s : State) :
  kernel (dispatcher s) = None ->
  get Kernel (bindedEventInfo s) <> [] ->
  destroy s = (Throw "TypeError", s).
Proof.
  intros Hk Hne. apply destroy_throws; [|exact Hne].
  unfold sourcePresent. now rewrite Hk.
Qed.

(** X18. In the same situation an [off] that empties the bus of the kernel
    target throws after the subscriber has left the bus: the bus has
    changed, nothing is detached and the name stays recorded as bound. *)
Theorem off_throws_without_kernel
    (s : State) (info : rawEventInfo) (p : wholeEventInfo) :
  prettifyEventParameter info = Ok p ->
  w_target p = Kernel ->
  kernel (dispatcher s) = None ->
  In (w_name p) (map fst (get Kernel (bindedEventInfo s))) ->
  In (w_name p) (get Kernel (bindedEventNames s)) ->
  busHasEvents
    (busOff (w_id p) (w_name p) (w_fn p) (w_stage p) (get Kernel (buses s)))
  = false ->
  off info s
  = (Throw "TypeError",
     setBus Kernel
       (busOff (w_id p) (w_name p) (w_fn p) (w_stage p) (get Kernel (buses s)))
       s).
Proof.
  intros Hp Ht Hk Hrec Hbound Hbus.
  unfold off, bind at 1, liftRes. rewrite Hp. unfold bind at 1.
  unfold modify at 1. unfold bind at 1. rewrite Ht.
  set (s1 := setBus Kernel _ s).
  unfold removeEventListenerOnTargetWhenIsUseless.
  rewrite isEventNeedToBeHandled_cases. cbn [negb].
  change (bindedEventNames s1) with (bindedEventNames s).
  change (bindedEventInfo s1) with (bindedEventInfo s).
  rewrite indexOf_tests_agree.
  replace (indexOf (w_name p) (get Kernel (bindedEventNames s)) >? -1)%Z
    with true by (symmetry; now apply indexOf_bound_iff).
  cbn [negb].
  replace (get Kernel (buses s1))
    with (busOff (w_id p) (w_name p) (w_fn p) (w_stage p) (get Kernel (buses s)))
    by (subst s1; cbn [setBus buses]; now rewrite get_set_same).
  rewrite Hbus.
  pose proof (findBinded_indexOf (w_name p) (get Kernel (bindedEventInfo s)) 0)
    as Hf.
  destruct (findBinded (w_name p) (get Kernel (bindedEventInfo s)) 0)
    as [[fn|] index].
  - cbn [BinderTarget_eqb]. unfold bind, kernelOff.
    change (dispatcher s1) with (dispatcher s). now rewrite Hk.
  - exfalso. apply (indexOfFrom_absent (w_name p) _ 0) in Hf; [|lia].
    contradiction.
Qed.

(** X19. A second [destroy] after one that returned returns too, even if
    the kernel has gone in between: it leaves the registry as the first one
    left it and calls the kernel no more, but it detaches once again every
    pair of the other targets, which the first one did not clear. *)
Theorem destroy_twice (s : State) (k : option ChimeeKernel) :
  sourcePresent Kernel s = true \/ get Kernel (bindedEventInfo s) = [] ->
  exists s1 s2,
    destroy s = (Ok tt, s1)
    /\ destroy (setKernel k s1) = (Ok tt, s2)
    /\ registry s2 = registry s1
    /\ trace s2 = trace s1 ++ detachTargets (tl kinds) s.
Proof.
  intros Hsrc.
  exists (destroyedUpTo kinds s),
         (destroyedUpTo kinds (setKernel k (destroyedUpTo kinds s))).
  split; [now apply destroy_returns|].
  split.
  { apply destroy_returns. right.
    unfold destroyedUpTo. cbn [setKernel bindedEventInfo]. apply get_set_same. }
  split.
  { unfold registry, destroyedUpTo.
    cbn [setKernel bindedEventInfo bindedEventNames]. now rewrite !set_set. }
  unfold destroyedUpTo at 1. cbn [trace]. f_equal.
Qed.

(** X20. Binding a node and then unbinding it, as is done for an overlay
    node and for a video element, attaches and then detaches the same
    functions under the same names, those recorded for the video surface
    for an overlay node, those and the ones of the video target for a
    video element; nothing else changes, and no function is made. *)
Theorem bind_then_unbind_node (node : Node) (s : State) :
  bindEventOnPenetrateNode node true (bindEventOnPenetrateNode node false s)
  = logAll
      (map (fun '(name, fn) => AddEvent node name fn)
         (get VideoDom (bindedEventInfo s))
       ++ map (fun '(name, fn) => RemoveEvent node name fn)
            (get VideoDom (bindedEventInfo s)))
      s
  /\ bindEventOnVideo node true (bindEventOnVideo node false s)
     = logAll
         (map (fun '(name, fn) => AddEvent node name fn)
            (get VideoDom (bindedEventInfo s) ++ get Video (bindedEventInfo s))
          ++ map (fun '(name, fn) => RemoveEvent node name fn)
               (get VideoDom (bindedEventInfo s)
                ++ get Video (bindedEventInfo s)))
         s.
Proof.
  assert (Hloop : forall remove (l : list (string * NativeFn)) st,
    forEach l (bindOrUnbind node remove) st
    = logAll
        (map (fun '(name, fn) =>
                if remove then RemoveEvent node name fn
                else AddEvent node name fn) l)
        st).
  { intros remove l. unfold forEach.
    induction l as [|[name fn] l IH]; intros st; cbn [fold_left map].
    - now rewrite logAll_nil.
    - rewrite IH. unfold bindOrUnbind, removeEvent, addEvent.
      destruct remove; rewrite log_logAll, logAll_logAll; reflexivity. }
  unfold bindEventOnPenetrateNode, bindEventOnVideo.
  rewrite !Hloop. cbn [logAll bindedEventInfo].
  unfold logAll. cbn [bindedEventInfo bindedEventNames buses dispatcher
                      pendingEventsInfo allocated trace].
  rewrite <- !app_assoc. split; reflexivity.
Qed.

End TeardownMore.

(** ** The further properties at work *)


Lemma a_string_is_not_an_object (x : string) : JsString x <> JsObject.
Proof. discriminate. Qed.


Lemma isEventEmitalbe_exactly_witness :
  isEventEmitalbe (mkEmit (JsString "p1") (JsString "play") None None) = true.
Proof.
  apply (isEventEmitalbe_exactly
           (mkEmit (JsString "p1") (JsString "play") None None)
           (a_string_is_not_an_object "p1") (a_string_is_not_an_object "play")).
  exists "p1", "play".
  split; [reflexivity|]. split; [reflexivity|].
  split; [discriminate|]. split; [discriminate | reflexivity].
Defined.


Lemma recorded_forwarder_reaches_its_bus_witness :
  callFn (mkFn 0 (forwarder Video "pause")) pointerEnters pluginState
  = (Ok RetBus, log (BusFanOut Video Trigger "pause") pluginState).
Proof.
  apply (recorded_forwarder_reaches_its_bus 0 Video "pause" pointerEnters
           pluginState); [reflexivity | discriminate | reflexivity].
Defined.

Lemma invalid_handler_throws_first_witness :
  exists msg,
    on (mkRaw JsUndefined "a" "click" None None) pluginState
    = (Throw msg, pluginState)
    /\ off (mkRaw JsUndefined "a" "click" None None) pluginState
       = (Throw msg, pluginState)
    /\ once (mkRaw JsUndefined "a" "click" None None) pluginState
       = (Throw msg, pluginState).
Proof.
  apply (invalid_handler_throws_first
           (mkRaw JsUndefined "a" "click" None None) pluginState).
  reflexivity.
Defined.

Lemma on_then_off_restores_the_registry_witness :
  exists s1 s2,
    on clickLeaves (newBinder (sampleDispatcher (Some 7))) = (Ok RetBus, s1)
    /\ off clickLeaves s1 = (Ok RetBus, s2)
    /\ trace s2
       = [AddEvent 3 "click" (mkFn 0 (ForwardSync Container "click" "container"));
          RemoveEvent 3 "click"
            (mkFn 0 (ForwardSync Container "click" "container"))]
    /\ registry s2 = registry (newBinder (sampleDispatcher (Some 7))).
Proof.
  pose proof (on_then_off_restores_the_registry
                (newBinder (sampleDispatcher (Some 7))) clickLeaves
                (mkWhole (JsFunction 100) "a" "click" StMain Container)
                (newBinder_registryOk _ _) eq_refl eq_refl
                (fun (F : False) => F) eq_refl eq_refl) as W.
  vm_compute in W. vm_compute. exact W.
Defined.

Lemma Container_is_not_Kernel : Container <> Kernel.
Proof. discriminate. Qed.

Lemma pending_is_for_the_kernel_only_witness :
  get Container (pendingEventsInfo waitingKernelState) = [].
Proof.
  unfold waitingKernelState.
  apply pending_is_for_the_kernel_only;
    [reflexivity | exact Container_is_not_Kernel].
Defined.

Lemma flush_binds_every_queued_name_witness :
  get Kernel (pendingEventsInfo (applyPendingEvents Kernel earlyKernelState))
  = []
  /\ In "heartbeat"
       (get Kernel (bindedEventNames (applyPendingEvents Kernel earlyKernelState)))
  /\ In "mediaInfo"
       (get Kernel (bindedEventNames (applyPendingEvents Kernel earlyKernelState))).
Proof.
  destruct (flush_binds_every_queued_name earlyKernelState 7 eq_refl)
    as (Hq & Hall & _).
  split; [exact Hq|].
  split.
  - apply (Hall "heartbeat" "a"). vm_compute. now left.
  - apply (Hall "mediaInfo" "b"). vm_compute. right. now left.
Defined.

Lemma early_kernel_subscription_is_bound_on_flush_witness :
  trace (exec (on heartbeat) (newBinder (sampleDispatcher None))) = []
  /\ get Kernel
       (pendingEventsInfo (exec (on heartbeat) (newBinder (sampleDispatcher None))))
     = [("heartbeat", "a")]
  /\ get Kernel
       (pendingEventsInfo
          (applyPendingEvents Kernel
             (setKernel (Some 7)
                (exec (on heartbeat) (newBinder (sampleDispatcher None))))))
     = []
  /\ exists fn,
       In (KernelOn 7 "heartbeat" fn)
         (trace
            (applyPendingEvents Kernel
               (setKernel (Some 7)
                  (exec (on heartbeat) (newBinder (sampleDispatcher None))))))
       /\ In ("heartbeat", fn)
            (get Kernel
               (bindedEventInfo
                  (applyPendingEvents Kernel
                     (setKernel (Some 7)
                        (exec (on heartbeat)
                           (newBinder (sampleDispatcher None))))))).
Proof.
  exact (early_kernel_subscription_is_bound_on_flush
           (newBinder (sampleDispatcher None)) heartbeat
           (mkWhole (JsFunction 100) "a" "heartbeat" StMain Kernel) 7
           eq_refl eq_refl eq_refl (fun (F : False) => F)).
Defined.

Lemma destroy_throws_without_kernel_witness :
  destroy kernelGoneState = (Throw "TypeError", kernelGoneState).
Proof.
  apply destroy_throws_without_kernel; [reflexivity|].
  vm_compute. discriminate.
Defined.

Lemma off_throws_without_kernel_witness :
  off heartbeat kernelGoneState
  = (Throw "TypeError", setBus Kernel [] kernelGoneState).
Proof.
  pose proof (off_throws_without_kernel kernelGoneState heartbeat
                (mkWhole (JsFunction 100) "a" "heartbeat" StMain Kernel)
                eq_refl eq_refl eq_refl) as W.
  vm_compute in W. vm_compute. apply W; [now left | now left | reflexivity].
Defined.

Lemma destroy_twice_witness :
  exists s1 s2,
    destroy containerState = (Ok tt, s1)
    /\ destroy (setKernel None s1) = (Ok tt, s2)
    /\ registry s2 = registry s1
    /\ trace s2 = trace s1 ++ detachTargets (tl kinds) containerState.
Proof.
  exact (destroy_twice containerState None (or_introl eq_refl)).
Defined.
